(** * CAN sniffer: capture buffer, bit-timing configuration and reporting

    A shallow embedding of [My_Modules/Drivers/can/my_can.c] together with
    the small parts of [my_stdio.c], [my_debug.c] and [my_uart.c] that it
    calls, followed by the properties of the capture subsystem.

    Conventions.
    - C integers are [Z]; narrowing stores are written out with [mod].
    - The file-scope variables of [my_can.c] are the fields of one record
      [state], threaded through every function.
    - Calls into the vendor HAL are recorded, in order, in the field
      [hal_calls]; bytes handed to [HAL_UART_Transmit] are appended to the
      field [uart_tx].
    - An array access outside its bounds, undefined in C, is the outcome
      [OutOfBounds]; the one unbounded loop takes fuel and reports
      [OutOfFuel] when it is exhausted. *)

From Stdlib Require Import ZArith List String Ascii Bool Lia.
From stdpp Require Import base list.
Import ListNotations.

Local Open Scope Z_scope.

(** ** Outcomes of partial operations *)

Inductive result (A : Type) : Type :=
| Ok (a : A)
| OutOfBounds
| OutOfFuel.

Arguments Ok {A} a.
Arguments OutOfBounds {A}.
Arguments OutOfFuel {A}.

Definition bind {A B : Type} (r : result A) (k : A -> result B) : result B :=
  match r with
  | Ok a => k a
  | OutOfBounds => OutOfBounds
  | OutOfFuel => OutOfFuel
  end.

Notation "'do' x <- r ; k" := (bind r (fun x => k))
  (at level 10, x pattern, r at level 100, k at level 200).

(** ** Text: the part of [vsnprintf] the firmware relies on *)

Module Text.

Definition text := list ascii.

Definition lit (s : string) : text := list_ascii_of_string s.

(** Character of one digit; [upper] selects [A-F] over [a-f]. *)
Definition digit_char (upper : bool) (d : Z) : ascii :=
  if d <? 10 then ascii_of_nat (48 + Z.to_nat d)
  else ascii_of_nat ((if upper then 55 else 87) + Z.to_nat d).

(** The [count] low digits of [n] in base [base], most significant first. *)
Definition digits (base : Z) (count : nat) (n : Z) : list Z :=
  map (fun i => (n / base ^ Z.of_nat i) mod base) (rev (seq 0 count)).

(** Leading zeros are not printed, the last digit always is. *)
Fixpoint strip_zeros (ds : list Z) : list Z :=
  match ds with
  | Z0 :: ((_ :: _) as rest) => strip_zeros rest
  | _ => ds
  end.

(** [%X] / [%x]: the argument read as a 32-bit [unsigned int]. *)
Definition conv_hex (upper : bool) (a : Z) : text :=
  map (digit_char upper) (strip_zeros (digits 16 8 (a mod 2 ^ 32))).

(** Decimal digits of a magnitude below [10 ^ 10]. *)
Definition conv_dec (a : Z) : text :=
  map (digit_char false) (strip_zeros (digits 10 10 a)).

(** The argument read as a 32-bit [int]. *)
Definition as_int (a : Z) : Z :=
  let u := a mod 2 ^ 32 in if u <? 2 ^ 31 then u else u - 2 ^ 32.

(** Field padding: [sign] stays in front of zero padding and behind
    blank padding. *)
Definition pad (zero : bool) (width : nat) (sign body : text) : text :=
  let fill := (width - (length sign + length body))%nat in
  if zero then sign ++ repeat "0"%char fill ++ body
  else repeat " "%char fill ++ sign ++ body.

Inductive directive : Type :=
| Literal
| Spec (zero : bool) (width : nat).

Definition is_digit (c : ascii) : bool :=
  let n := nat_of_ascii c in ((48 <=? n) && (n <=? 57))%nat.

(** Interpretation of a format string.  The conversions used by the
    firmware are covered: [%d], [%X], [%x] and [%%], each with an
    optional [0] flag and a decimal field width.  Any other conversion
    character is copied to the output. *)
Fixpoint format (d : directive) (fmt : string) (args : list Z) : text :=
  match fmt with
  | EmptyString => []
  | String c rest =>
      match d with
      | Literal =>
          if Ascii.eqb c "%" then format (Spec false 0) rest args
          else c :: format Literal rest args
      | Spec zero width =>
          if Ascii.eqb c "0" && negb zero && (width =? 0)%nat
          then format (Spec true 0) rest args
          else if is_digit c
          then format (Spec zero (10 * width + (nat_of_ascii c - 48))) rest args
          else if Ascii.eqb c "d" then
            let v := as_int (hd 0 args) in
            pad zero width (if v <? 0 then lit "-" else []) (conv_dec (Z.abs v))
              ++ format Literal rest (tl args)
          else if Ascii.eqb c "X" then
            pad zero width [] (conv_hex true (hd 0 args))
              ++ format Literal rest (tl args)
          else if Ascii.eqb c "x" then
            pad zero width [] (conv_hex false (hd 0 args))
              ++ format Literal rest (tl args)
          else c :: format Literal rest args
      end
  end.

(** [vsnprintf(buf, size, fmt, args)]: at most [size - 1] characters are
    stored in [buf] (the terminating NUL takes the last place). *)
Definition vsnprintf (size : nat) (fmt : string) (args : list Z) : text :=
  firstn (size - 1) (format Literal fmt args).

End Text.

Import Text.

(** Line ends.  The C literals [\r] and [\n]. *)
Definition CR : ascii := ascii_of_nat 13.
Definition LF : ascii := ascii_of_nat 10.
Definition crlf (tail : string) : string := String CR (String LF tail).
Definition lf (tail : string) : string := String LF tail.

(** ** Data model ([my_can.h]) *)

Definition uint8 (z : Z) : Z := z mod 2 ^ 8.
Definition uint16 (z : Z) : Z := z mod 2 ^ 16.

Definition WAIT_FOR_TRAFFIC : Z := 1500.
Definition SOFTWARE_CAN_BUFFER_SIZE : Z := 256.

(** [my_CAN_BitTiming]; its [baudrate] field is [timing_baudrate] here,
    the plain name being taken by [my_CAN_Status]. *)
Record my_CAN_BitTiming : Type := {
  timing_baudrate : Z;
  prescaler : Z;
  timeSeg1 : Z;
  timeSeg2 : Z
}.

Record my_CAN_Status : Type := {
  is_set : bool;
  baudrate : Z;
  filter_id : Z;
  mask_id : Z
}.

(** [Data] is the array [uint8_t Data[8]]. *)
Record my_CAN_Frame : Type := {
  Identifier : Z;
  DataLength : Z;
  Data : list Z
}.

Definition can_timings : list my_CAN_BitTiming := [
  {| timing_baudrate := 5000;    prescaler := 200; timeSeg1 := 34; timeSeg2 := 5 |};
  {| timing_baudrate := 10000;   prescaler := 100; timeSeg1 := 34; timeSeg2 := 5 |};
  {| timing_baudrate := 20000;   prescaler := 50;  timeSeg1 := 34; timeSeg2 := 5 |};
  {| timing_baudrate := 50000;   prescaler := 20;  timeSeg1 := 34; timeSeg2 := 5 |};
  {| timing_baudrate := 100000;  prescaler := 10;  timeSeg1 := 34; timeSeg2 := 5 |};
  {| timing_baudrate := 125000;  prescaler := 8;   timeSeg1 := 34; timeSeg2 := 5 |};
  {| timing_baudrate := 200000;  prescaler := 5;   timeSeg1 := 34; timeSeg2 := 5 |};
  {| timing_baudrate := 250000;  prescaler := 4;   timeSeg1 := 34; timeSeg2 := 5 |};
  {| timing_baudrate := 400000;  prescaler := 4;   timeSeg1 := 19; timeSeg2 := 5 |};
  {| timing_baudrate := 500000;  prescaler := 2;   timeSeg1 := 34; timeSeg2 := 5 |};
  {| timing_baudrate := 800000;  prescaler := 2;   timeSeg1 := 19; timeSeg2 := 5 |};
  {| timing_baudrate := 1000000; prescaler := 1;   timeSeg1 := 34; timeSeg2 := 5 |}
].

Definition baudrates_nbr : Z := uint8 (Z.of_nat (length can_timings)).

(** ** The controller interface (vendor HAL)

    The HAL is not part of the firmware sources.  Its types keep the
    fields this module touches, its enumerated constants are constructors,
    and every call is an event of the log. *)

Record FDCAN_InitTypeDef : Type := {
  NominalPrescaler : Z;
  NominalTimeSeg1 : Z;
  NominalTimeSeg2 : Z
}.

Inductive FDCAN_id_type : Type := FDCAN_STANDARD_ID | FDCAN_EXTENDED_ID.
Inductive FDCAN_filter_type : Type :=
  FDCAN_FILTER_RANGE | FDCAN_FILTER_DUAL | FDCAN_FILTER_MASK.
Inductive FDCAN_filter_config : Type :=
  FDCAN_FILTER_DISABLE | FDCAN_FILTER_TO_RXFIFO0 | FDCAN_FILTER_TO_RXFIFO1.
Inductive FDCAN_non_matching : Type :=
  FDCAN_ACCEPT_IN_RX_FIFO0 | FDCAN_ACCEPT_IN_RX_FIFO1 | FDCAN_REJECT.
Inductive FDCAN_remote : Type := FDCAN_FILTER_REMOTE | FDCAN_REJECT_REMOTE.
Inductive FDCAN_rx_location : Type := FDCAN_RX_FIFO0 | FDCAN_RX_FIFO1.
Inductive FDCAN_interrupt : Type :=
  FDCAN_IT_RX_FIFO0_NEW_MESSAGE | FDCAN_IT_RX_FIFO0_MESSAGE_LOST.
Inductive FDCAN_flag : Type := FDCAN_FLAG_RX_FIFO0_MESSAGE_LOST.
Inductive HAL_StatusTypeDef : Type := HAL_OK | HAL_ERROR.

Record FDCAN_FilterTypeDef : Type := {
  IdType : FDCAN_id_type;
  FilterIndex : Z;
  FilterType : FDCAN_filter_type;
  FilterConfig : FDCAN_filter_config;
  FilterID1 : Z;
  FilterID2 : Z
}.

(** The header fields read by the receive callback. *)
Record FDCAN_RxHeaderTypeDef : Type := {
  RxIdentifier : Z;
  RxDataLength : Z
}.

(** One element of the controller's receive FIFO 0: the header and the
    payload bytes [HAL_FDCAN_GetRxMessage] delivers. *)
Record RxMessage : Type := {
  rxHeader : FDCAN_RxHeaderTypeDef;
  rxPayload : list Z
}.

Inductive hal_call : Type :=
| HAL_FDCAN_Init (init : FDCAN_InitTypeDef)
| HAL_FDCAN_ConfigGlobalFilter
    (NonMatchingStd NonMatchingExt : FDCAN_non_matching)
    (RejectRemoteStd RejectRemoteExt : FDCAN_remote)
| HAL_FDCAN_ConfigFilter (sFilterConfig : FDCAN_FilterTypeDef)
| HAL_FDCAN_Start
| HAL_FDCAN_Stop
| HAL_Delay (ms : Z)
| HAL_FDCAN_GetRxFifoFillLevel (fifo : FDCAN_rx_location)
| HAL_FDCAN_ActivateNotification (its : FDCAN_interrupt) (BufferIndexes : Z)
| HAL_FDCAN_DeactivateNotification (its : FDCAN_interrupt)
| HAL_FDCAN_GetRxMessage (fifo : FDCAN_rx_location) (status : HAL_StatusTypeDef)
| HAL_FDCAN_CLEAR_FLAG (flag : FDCAN_flag).

(** ** Program state *)

Record state : Type := {
  software_CAN_buffer_overflow : bool;
  hardware_CAN_buffer_overflow : bool;
  head : Z;
  tail : Z;
  CAN_ring_buffer : list my_CAN_Frame;
  can_status : my_CAN_Status;
  sFilterConfig : FDCAN_FilterTypeDef;
  hfdcan1_Init : FDCAN_InitTypeDef;
  hal_calls : list hal_call;
  uart_tx : text
}.

Definition set_software_CAN_buffer_overflow (v : bool) (s : state) : state :=
  {| software_CAN_buffer_overflow := v;
     hardware_CAN_buffer_overflow := hardware_CAN_buffer_overflow s;
     head := head s; tail := tail s; CAN_ring_buffer := CAN_ring_buffer s;
     can_status := can_status s; sFilterConfig := sFilterConfig s;
     hfdcan1_Init := hfdcan1_Init s; hal_calls := hal_calls s;
     uart_tx := uart_tx s |}.

Definition set_hardware_CAN_buffer_overflow (v : bool) (s : state) : state :=
  {| software_CAN_buffer_overflow := software_CAN_buffer_overflow s;
     hardware_CAN_buffer_overflow := v;
     head := head s; tail := tail s; CAN_ring_buffer := CAN_ring_buffer s;
     can_status := can_status s; sFilterConfig := sFilterConfig s;
     hfdcan1_Init := hfdcan1_Init s; hal_calls := hal_calls s;
     uart_tx := uart_tx s |}.

Definition set_head (v : Z) (s : state) : state :=
  {| software_CAN_buffer_overflow := software_CAN_buffer_overflow s;
     hardware_CAN_buffer_overflow := hardware_CAN_buffer_overflow s;
     head := v; tail := tail s; CAN_ring_buffer := CAN_ring_buffer s;
     can_status := can_status s; sFilterConfig := sFilterConfig s;
     hfdcan1_Init := hfdcan1_Init s; hal_calls := hal_calls s;
     uart_tx := uart_tx s |}.

Definition set_tail (v : Z) (s : state) : state :=
  {| software_CAN_buffer_overflow := software_CAN_buffer_overflow s;
     hardware_CAN_buffer_overflow := hardware_CAN_buffer_overflow s;
     head := head s; tail := v; CAN_ring_buffer := CAN_ring_buffer s;
     can_status := can_status s; sFilterConfig := sFilterConfig s;
     hfdcan1_Init := hfdcan1_Init s; hal_calls := hal_calls s;
     uart_tx := uart_tx s |}.

Definition set_CAN_ring_buffer (v : list my_CAN_Frame) (s : state) : state :=
  {| software_CAN_buffer_overflow := software_CAN_buffer_overflow s;
     hardware_CAN_buffer_overflow := hardware_CAN_buffer_overflow s;
     head := head s; tail := tail s; CAN_ring_buffer := v;
     can_status := can_status s; sFilterConfig := sFilterConfig s;
     hfdcan1_Init := hfdcan1_Init s; hal_calls := hal_calls s;
     uart_tx := uart_tx s |}.

Definition set_can_status (v : my_CAN_Status) (s : state) : state :=
  {| software_CAN_buffer_overflow := software_CAN_buffer_overflow s;
     hardware_CAN_buffer_overflow := hardware_CAN_buffer_overflow s;
     head := head s; tail := tail s; CAN_ring_buffer := CAN_ring_buffer s;
     can_status := v; sFilterConfig := sFilterConfig s;
     hfdcan1_Init := hfdcan1_Init s; hal_calls := hal_calls s;
     uart_tx := uart_tx s |}.

Definition set_sFilterConfig (v : FDCAN_FilterTypeDef) (s : state) : state :=
  {| software_CAN_buffer_overflow := software_CAN_buffer_overflow s;
     hardware_CAN_buffer_overflow := hardware_CAN_buffer_overflow s;
     head := head s; tail := tail s; CAN_ring_buffer := CAN_ring_buffer s;
     can_status := can_status s; sFilterConfig := v;
     hfdcan1_Init := hfdcan1_Init s; hal_calls := hal_calls s;
     uart_tx := uart_tx s |}.

Definition set_hfdcan1_Init (v : FDCAN_InitTypeDef) (s : state) : state :=
  {| software_CAN_buffer_overflow := software_CAN_buffer_overflow s;
     hardware_CAN_buffer_overflow := hardware_CAN_buffer_overflow s;
     head := head s; tail := tail s; CAN_ring_buffer := CAN_ring_buffer s;
     can_status := can_status s; sFilterConfig := sFilterConfig s;
     hfdcan1_Init := v; hal_calls := hal_calls s;
     uart_tx := uart_tx s |}.

Definition set_hal_calls (v : list hal_call) (s : state) : state :=
  {| software_CAN_buffer_overflow := software_CAN_buffer_overflow s;
     hardware_CAN_buffer_overflow := hardware_CAN_buffer_overflow s;
     head := head s; tail := tail s; CAN_ring_buffer := CAN_ring_buffer s;
     can_status := can_status s; sFilterConfig := sFilterConfig s;
     hfdcan1_Init := hfdcan1_Init s; hal_calls := v;
     uart_tx := uart_tx s |}.

Definition set_uart_tx (v : text) (s : state) : state :=
  {| software_CAN_buffer_overflow := software_CAN_buffer_overflow s;
     hardware_CAN_buffer_overflow := hardware_CAN_buffer_overflow s;
     head := head s; tail := tail s; CAN_ring_buffer := CAN_ring_buffer s;
     can_status := can_status s; sFilterConfig := sFilterConfig s;
     hfdcan1_Init := hfdcan1_Init s; hal_calls := hal_calls s;
     uart_tx := v |}.

(** A HAL call leaves its trace in the log. *)
Definition hal (c : hal_call) (s : state) : state :=
  set_hal_calls (hal_calls s ++ [c]) s.

(** C arrays: an index outside the array is [OutOfBounds]. *)
Definition array_get {A : Type} (a : list A) (i : Z) : result A :=
  if 0 <=? i then
    match a !! Z.to_nat i with
    | Some x => Ok x
    | None => OutOfBounds
    end
  else OutOfBounds.

Definition array_set {A : Type} (a : list A) (i : Z) (x : A) : result (list A) :=
  if (0 <=? i) && (i <? Z.of_nat (length a))
  then Ok (<[Z.to_nat i := x]> a)
  else OutOfBounds.

(** [memcpy(dst, src, n)] between two arrays: the first [n] bytes of [dst]
    become those of [src]; [n] beyond either array is [OutOfBounds]. *)
Definition memcpy (dst src : list Z) (n : Z) : result (list Z) :=
  if (n <=? Z.of_nat (length dst)) && (n <=? Z.of_nat (length src))
  then Ok (firstn (Z.to_nat n) src ++ skipn (Z.to_nat n) dst)
  else OutOfBounds.

(** ** [my_uart.c], [my_stdio.c], [my_debug.c] *)

(** [HAL_UART_Transmit] of the whole buffer.  The buffers sent by this
    firmware come from formats without [%c] or [%s], so they hold no NUL
    before their end and [strlen] is their length. *)
Definition my_uart_transmit_buffer (buf : text) (s : state) : state :=
  set_uart_tx (uart_tx s ++ buf) s.

(** The local buffer is [char buf[128]]. *)
Definition my_printf (fmt : string) (args : list Z) (s : state) : state :=
  my_uart_transmit_buffer (vsnprintf 128 fmt args) s.

Definition DEBUG_printf (fmt : string) (args : list Z) (s : state) : state :=
  let buf := vsnprintf 128 fmt args in
  let s :=
    my_printf
      (lf (lf (lf ("$$$$$$$$$ DEBUG print START $$$$$$$$$" ++ crlf EmptyString))))
      [] s in
  let s := my_uart_transmit_buffer buf s in
  my_printf
    ("$$$$$$$$$ DEBUG print END $$$$$$$$$$$" ++ crlf (lf (lf EmptyString)))
    [] s.

(** ** [my_can.c] *)

Definition timing_of (e : my_CAN_BitTiming) : FDCAN_InitTypeDef :=
  {| NominalPrescaler := prescaler e;
     NominalTimeSeg1 := timeSeg1 e;
     NominalTimeSeg2 := timeSeg2 e |}.

(** The three assignments to [hfdcan1.Init]. *)
Definition apply_timing (e : my_CAN_BitTiming) (s : state) : state :=
  set_hfdcan1_Init (timing_of e) s.

(** [return can_status = (my_CAN_Status){...}]. *)
Definition assign_status (v : my_CAN_Status) (s : state) : my_CAN_Status * state :=
  (v, set_can_status v s).

(** The loop of [my_CAN_manual_configuration] over the remaining table
    entries. *)
Fixpoint manual_configuration_loop
  (table : list my_CAN_BitTiming) (baudrate : Z) (s : state)
  : my_CAN_Status * state :=
  match table with
  | [] =>
      assign_status
        {| is_set := false; baudrate := 0;
           filter_id := filter_id (can_status s);
           mask_id := mask_id (can_status s) |} s
  | e :: rest =>
      if negb (timing_baudrate e =? baudrate)
      then manual_configuration_loop rest baudrate s
      else
        let s := apply_timing e s in
        assign_status
          {| is_set := true; baudrate := baudrate;
             filter_id := filter_id (can_status s);
             mask_id := mask_id (can_status s) |} s
  end.

Definition my_CAN_manual_configuration (baudrate : Z) (s : state)
  : my_CAN_Status * state :=
  manual_configuration_loop can_timings baudrate s.

Definition my_CAN_set_filter_mask (filter_id mask_id : Z) (s : state)
  : my_CAN_Status * state :=
  let filter_id := Z.land filter_id 2047 in
  let s :=
    set_sFilterConfig
      {| IdType := IdType (sFilterConfig s);
         FilterIndex := FilterIndex (sFilterConfig s);
         FilterType := FilterType (sFilterConfig s);
         FilterConfig := FilterConfig (sFilterConfig s);
         FilterID1 := filter_id;
         FilterID2 := FilterID2 (sFilterConfig s) |} s in
  let mask_id := Z.land mask_id 2047 in
  let s :=
    set_sFilterConfig
      {| IdType := IdType (sFilterConfig s);
         FilterIndex := FilterIndex (sFilterConfig s);
         FilterType := FilterType (sFilterConfig s);
         FilterConfig := FilterConfig (sFilterConfig s);
         FilterID1 := FilterID1 (sFilterConfig s);
         FilterID2 := mask_id |} s in
  assign_status
    {| is_set := is_set (can_status s); baudrate := baudrate (can_status s);
       filter_id := filter_id; mask_id := mask_id |} s.

Definition get_my_CAN_status (to_print : bool) (s : state)
  : my_CAN_Status * state :=
  let s :=
    if to_print then
      if is_set (can_status s) then
        let s := my_printf ("CAN configured." ++ crlf EmptyString) [] s in
        let s := my_printf ("Baud Rate: %d" ++ crlf EmptyString)
                   [baudrate (can_status s)] s in
        let s := my_printf ("Filter ID: 0x%03x" ++ crlf EmptyString)
                   [filter_id (can_status s)] s in
        my_printf ("Mask ID: 0x%03x" ++ crlf EmptyString)
          [mask_id (can_status s)] s
      else
        let s := my_printf ("CAN not configured." ++ crlf EmptyString) [] s in
        let s := my_printf ("Baud Rate not set." ++ crlf EmptyString) [] s in
        let s := my_printf ("Filter ID: 0x%03x" ++ crlf EmptyString)
                   [filter_id (can_status s)] s in
        my_printf ("Mask ID: 0x%03x" ++ crlf EmptyString)
          [mask_id (can_status s)] s
    else s in
  (can_status s, s).

Definition my_CAN_start (s : state) : bool * state :=
  if is_set (can_status s) then
    let s := hal (HAL_FDCAN_Init (hfdcan1_Init s)) s in
    let s :=
      hal (HAL_FDCAN_ConfigGlobalFilter
             FDCAN_REJECT FDCAN_REJECT FDCAN_REJECT_REMOTE FDCAN_REJECT_REMOTE) s in
    let s :=
      set_sFilterConfig
        {| IdType := FDCAN_STANDARD_ID;
           FilterIndex := 0;
           FilterType := FDCAN_FILTER_MASK;
           FilterConfig := FDCAN_FILTER_TO_RXFIFO0;
           FilterID1 := filter_id (can_status s);
           FilterID2 := mask_id (can_status s) |} s in
    let s := hal (HAL_FDCAN_ConfigFilter (sFilterConfig s)) s in
    let s := hal HAL_FDCAN_Start s in
    let s := hal (HAL_FDCAN_ActivateNotification FDCAN_IT_RX_FIFO0_NEW_MESSAGE 0) s in
    (true, s)
  else (false, s).

Definition my_CAN_stop (s : state) : state :=
  let s := hal HAL_FDCAN_Stop s in
  let s := hal (HAL_FDCAN_DeactivateNotification FDCAN_IT_RX_FIFO0_NEW_MESSAGE) s in
  set_head 0 (set_tail 0 s).

(** The body of the receive callback after the frame is assembled: the
    insertion into the ring (the [next_head] computation and the
    [if]/[else] that follows it). *)
Definition store_frame (frame : my_CAN_Frame) (s : state) : result state :=
  let next_head := uint16 (Z.land (head s + 1) (SOFTWARE_CAN_BUFFER_SIZE - 1)) in
  if next_head =? tail s then
    Ok (set_software_CAN_buffer_overflow true s)
  else
    do buffer <- array_set (CAN_ring_buffer s) (head s) frame;
    Ok (set_head next_head (set_CAN_ring_buffer buffer s)).

(** [HAL_FDCAN_GetRxMessage] on receive FIFO 0, whose contents are
    [hfdcan]: with a message queued it is removed, its header and payload
    are written to the caller's [rxHeader] and [rxData], and the call
    returns [HAL_OK]; with none it returns an error ([None]). *)
Definition HAL_FDCAN_GetRxMessage_FIFO0 (hfdcan : list RxMessage) (rxData : list Z)
  : option (FDCAN_RxHeaderTypeDef * list Z * list RxMessage) :=
  match hfdcan with
  | [] => None
  | m :: rest =>
      Some (rxHeader m,
            firstn (length rxData)
              (rxPayload m ++ skipn (length (rxPayload m)) rxData),
            rest)
  end.

(** The [for (int i = 0; i < 32; i++)] loop of the callback, with
    [remaining = 32 - i]. *)
Fixpoint RxFifo0Callback_loop
  (remaining : nat) (hfdcan : list RxMessage) (s : state)
  : result (list RxMessage * state) :=
  match remaining with
  | O => Ok (hfdcan, s)
  | S remaining' =>
      let rxData := repeat 0 8 in
      let frame := {| Identifier := 0; DataLength := 0; Data := repeat 0 8 |} in
      match HAL_FDCAN_GetRxMessage_FIFO0 hfdcan rxData with
      | None => Ok (hfdcan, hal (HAL_FDCAN_GetRxMessage FDCAN_RX_FIFO0 HAL_ERROR) s)
      | Some (rxHeader, rxData, hfdcan) =>
          let s := hal (HAL_FDCAN_GetRxMessage FDCAN_RX_FIFO0 HAL_OK) s in
          let frame :=
            {| Identifier := RxIdentifier rxHeader;
               DataLength := DataLength frame; Data := Data frame |} in
          let frame :=
            {| Identifier := Identifier frame;
               DataLength := uint8 (RxDataLength rxHeader);
               Data := Data frame |} in
          do data <- memcpy (Data frame) rxData (RxDataLength rxHeader);
          let frame :=
            {| Identifier := Identifier frame;
               DataLength := DataLength frame; Data := data |} in
          do s <- store_frame frame s;
          RxFifo0Callback_loop remaining' hfdcan s
      end
  end.

Definition read_frame_from_software_CAN_buffer (s : state)
  : result (option my_CAN_Frame * state) :=
  if head s =? tail s then Ok (None, s)
  else
    do frame <- array_get (CAN_ring_buffer s) (tail s);
    Ok (Some frame,
        set_tail (uint16 (Z.land (tail s + 1) (SOFTWARE_CAN_BUFFER_SIZE - 1))) s).

(** [for (int i = 0; i < frame.DataLength; i++) my_printf(" %02X", frame.Data[i])],
    with [remaining = frame.DataLength - i]. *)
Fixpoint print_Data (remaining : nat) (i : Z) (frame : my_CAN_Frame) (s : state)
  : result state :=
  match remaining with
  | O => Ok s
  | S remaining' =>
      do byte <- array_get (Data frame) i;
      print_Data remaining' (i + 1) frame (my_printf " %02X" [byte] s)
  end.

(** The [while] loop of [send_frame_over_UART]; one unit of fuel per
    evaluation of its condition. *)
Fixpoint send_frame_over_UART_loop (fuel : nat) (s : state) : result state :=
  match fuel with
  | O => OutOfFuel
  | S fuel' =>
      do r <- read_frame_from_software_CAN_buffer s;
      match r with
      | (None, s) => Ok s
      | (Some frame, s) =>
          let s :=
            my_printf "ID: 0x%03X, DLC: %d, Data:"
              [Identifier frame; DataLength frame] s in
          do s <- print_Data (Z.to_nat (DataLength frame)) 0 frame s;
          send_frame_over_UART_loop fuel' (my_printf (crlf (lf EmptyString)) [] s)
      end
  end.

Definition send_frame_over_UART (fuel : nat) (s : state) : result state :=
  let s :=
    if hardware_CAN_buffer_overflow s then
      DEBUG_printf ("Hardware CAN FIFO overflow!" ++ crlf EmptyString) []
        (set_hardware_CAN_buffer_overflow false s)
    else s in
  let s :=
    if software_CAN_buffer_overflow s then
      DEBUG_printf ("Software CAN buffer overflow!" ++ crlf EmptyString) []
        (set_software_CAN_buffer_overflow false s)
    else s in
  send_frame_over_UART_loop fuel s.

(** The functions that depend on what the controller and the bus answer. *)
Section Controller.

(** The fill level of receive FIFO 0 that [HAL_FDCAN_GetRxFifoFillLevel]
    reports once the controller has run for [WAIT_FOR_TRAFFIC] with the
    given nominal bit timing. *)
Variable RxFifo0FillLevel : FDCAN_InitTypeDef -> Z.

(** The bit of each interrupt source in the [RxFifo0ITs] word. *)
Variable interrupt_mask : FDCAN_interrupt -> Z.

Definition check_Fifo (s : state) : bool * state :=
  let s := hal (HAL_FDCAN_Init (hfdcan1_Init s)) s in
  let s := hal HAL_FDCAN_Start s in
  let s := hal (HAL_Delay WAIT_FOR_TRAFFIC) s in
  let s := hal (HAL_FDCAN_GetRxFifoFillLevel FDCAN_RX_FIFO0) s in
  if RxFifo0FillLevel (hfdcan1_Init s) >? 0 then
    let s := hal HAL_FDCAN_Stop s in
    (true, s)
  else
    let s := hal HAL_FDCAN_Stop s in
    (false, s).

(** The loop of [my_CAN_auto_configuration] over the remaining table
    entries. *)
Fixpoint auto_configuration_loop
  (table : list my_CAN_BitTiming) (to_print : bool) (s : state)
  : my_CAN_Status * state :=
  match table with
  | [] =>
      assign_status
        {| is_set := false; baudrate := 0;
           filter_id := filter_id (can_status s);
           mask_id := mask_id (can_status s) |} s
  | e :: rest =>
      let s :=
        if to_print
        then my_printf ("Trying Baud Rate: %d" ++ crlf EmptyString)
               [timing_baudrate e] s
        else s in
      let s := apply_timing e s in
      let s := hal (HAL_FDCAN_Init (hfdcan1_Init s)) s in
      let s :=
        hal (HAL_FDCAN_ConfigGlobalFilter
               FDCAN_ACCEPT_IN_RX_FIFO0 FDCAN_REJECT
               FDCAN_REJECT_REMOTE FDCAN_REJECT_REMOTE) s in
      let (traffic, s) := check_Fifo s in
      if traffic then
        assign_status
          {| is_set := true; baudrate := timing_baudrate e;
             filter_id := filter_id (can_status s);
             mask_id := mask_id (can_status s) |} s
      else auto_configuration_loop rest to_print s
  end.

Definition my_CAN_auto_configuration (to_print : bool) (s : state)
  : my_CAN_Status * state :=
  auto_configuration_loop can_timings to_print s.

(** The callback is only ever raised for [hfdcan1]; [hfdcan] is the
    contents of its receive FIFO 0, returned with what is left in it. *)
Definition HAL_FDCAN_RxFifo0Callback
  (hfdcan : list RxMessage) (RxFifo0ITs : Z) (s : state)
  : result (list RxMessage * state) :=
  let s :=
    if negb (Z.land RxFifo0ITs (interrupt_mask FDCAN_IT_RX_FIFO0_MESSAGE_LOST) =? 0)
    then
      let s := set_hardware_CAN_buffer_overflow true s in
      hal (HAL_FDCAN_CLEAR_FLAG FDCAN_FLAG_RX_FIFO0_MESSAGE_LOST) s
    else s in
  RxFifo0Callback_loop 32 hfdcan s.

End Controller.

(** ** [my_uart.c], [my_stdio.c]: input *)

(** [my_uart_receive_char]: [rx] holds the characters the UART will still
    deliver; the call takes the next one, and with none to come it waits
    for ever ([HAL_MAX_DELAY]), which is [None]. *)
Definition my_uart_receive_char (rx : text) : option (ascii * text) :=
  match rx with
  | [] => None
  | ch :: rx => Some (ch, rx)
  end.

(** The [while (i < sizeof(buf) - 1)] loop of [my_scanf], with
    [room = sizeof(buf) - 1 - i] and [buf] the [i] characters stored. *)
Fixpoint my_scanf_loop (room : nat) (buf : text) (rx : text) : option (text * text) :=
  match room with
  | O => Some (buf, rx)
  | S room' =>
      match my_uart_receive_char rx with
      | None => None
      | Some (ch, rx) =>
          if Ascii.eqb ch CR || Ascii.eqb ch LF then Some (buf, rx)
          else my_scanf_loop room' (buf ++ [ch]) rx
      end
  end.

(** The string a [char] array holds: its characters before the first
    NUL. *)
Fixpoint c_string (buf : text) : text :=
  match buf with
  | [] => []
  | ch :: rest => if Ascii.eqb ch zero then [] else ch :: c_string rest
  end.

(** ** [settings_menu.c] *)

Inductive SystemState : Type := STATE_RUN | STATE_MENU.

Definition char_code (c : ascii) : Z := Z.of_nat (nat_of_ascii c).

Definition print_menu (s : state) : state :=
  let s := my_printf ("*************************************" ++ crlf EmptyString) [] s in
  let s := my_printf ("* CAN Sniffer - Settings menu       *" ++ crlf EmptyString) [] s in
  let s := my_printf ("*                                   *" ++ crlf EmptyString) [] s in
  let s := my_printf ("* a: Auto Configure CAN Baud Rate   *" ++ crlf EmptyString) [] s in
  let s := my_printf ("* m: Manual Configure CAN Baud Rate *" ++ crlf EmptyString) [] s in
  let s := my_printf ("* s: Set CAN Filter-Mask            *" ++ crlf EmptyString) [] s in
  let s := my_printf ("* g: Get CAN Sniffer status         *" ++ crlf EmptyString) [] s in
  let s := my_printf ("* q: Quit and Start CAN Sniffer     *" ++ crlf EmptyString) [] s in
  my_printf ("*************************************" ++ crlf (lf EmptyString)) [] s.

(** How one pass through the body of the menu's [while (1)] ends. *)
Inductive iteration : Type :=
| Continue (rx : text) (s : state)
| Return (rx : text) (s : state)
| Block (s : state).

(** How a call of [settings_menu] ends: it returns, with the value of
    [system_state], the input left and the state; or it waits for input
    for ever. *)
Inductive menu_outcome : Type :=
| MenuReturned (system_state : SystemState) (rx : text) (s : state)
| MenuBlocked (system_state : SystemState) (s : state)
| MenuOutOfFuel.

Section Menu.

(** The fill level reported after a probe, as in [check_Fifo]. *)
Variable RxFifo0FillLevel : FDCAN_InitTypeDef -> Z.

(** [vsscanf(buf, fmt, ...)] of the C library, for the formats of this
    firmware, which all hold one conversion: the value it stores, if it
    stores one. *)
Variable vsscanf : text -> string -> option Z.

(** [my_scanf]: the line read and parsed, and the input left; [None]
    when it waits for input for ever. *)
Definition my_scanf (fmt : string) (rx : text) : option (option Z * text) :=
  match my_scanf_loop 127 [] rx with
  | None => None
  | Some (buf, rx) => Some (vsscanf (c_string buf) fmt, rx)
  end.

(** One pass through the loop body.  [__HAL_UART_FLUSH_DRREGISTER] drops
    what the receiver already holds and is not seen in [rx], the
    characters the reads to come deliver. *)
Definition settings_menu_iteration (rx : text) (s : state) : iteration :=
  match my_scanf " %c" rx with
  | None => Block s
  | Some (scanned, rx) =>
      let option := match scanned with Some c => uint8 c | None => 0 end in
      if option =? char_code "a" then
        let (status, s) := my_CAN_auto_configuration RxFifo0FillLevel true s in
        let s :=
          if is_set status then
            let s := my_printf (lf ("CAN Detected!" ++ crlf (lf EmptyString))) [] s in
            let s := snd (get_my_CAN_status true s) in
            my_printf (lf EmptyString) [] s
          else my_printf (lf ("No CAN Detected!" ++ crlf (lf EmptyString))) [] s in
        let s := my_printf (lf EmptyString) [] s in
        Continue rx (print_menu s)
      else if option =? char_code "m" then
        let s := my_printf ("Provide one of the supported Baud Rates:" ++ crlf EmptyString) [] s in
        let s :=
          fold_left
            (fun s e => my_printf ("%d" ++ crlf EmptyString) [timing_baudrate e] s)
            can_timings s in
        let s := my_printf (lf EmptyString) [] s in
        match my_scanf " %d" rx with
        | None => Block s
        | Some (scanned, rx) =>
            let baudrate := match scanned with Some v => v mod 2 ^ 32 | None => 0 end in
            let (status, s) := my_CAN_manual_configuration baudrate s in
            let s :=
              if is_set status then
                let s := snd (get_my_CAN_status true s) in
                my_printf (lf EmptyString) [] s
              else my_printf ("Configuration failed." ++ crlf (lf EmptyString)) [] s in
            let s := my_printf (lf EmptyString) [] s in
            Continue rx (print_menu s)
        end
      else if option =? char_code "s" then
        let s := my_printf ("Provide filter in 0x<filter_id> format" ++ crlf EmptyString) [] s in
        match my_scanf " 0x%x" rx with
        | None => Block s
        | Some (scanned, rx) =>
            let filter_id := match scanned with Some v => v mod 2 ^ 32 | None => 0 end in
            let s := my_printf (lf EmptyString) [] s in
            let s := my_printf ("Provide mask in 0x<mask_id> format" ++ crlf EmptyString) [] s in
            match my_scanf " 0x%x" rx with
            | None => Block s
            | Some (scanned, rx) =>
                let mask_id := match scanned with Some v => v mod 2 ^ 32 | None => 0 end in
                let s := my_printf (lf (lf EmptyString)) [] s in
                let s := snd (my_CAN_set_filter_mask filter_id mask_id s) in
                let s := snd (get_my_CAN_status true s) in
                let s := my_printf (lf (lf EmptyString)) [] s in
                Continue rx (print_menu s)
            end
        end
      else if option =? char_code "g" then
        let s := snd (get_my_CAN_status true s) in
        let s := my_printf (lf EmptyString) [] s in
        Continue rx (print_menu s)
      else if option =? char_code "q" then
        let (started, s') := my_CAN_start s in
        if started then Return rx s'
        else
          let s := my_printf ("CAN not configured." ++ crlf (lf EmptyString)) [] s' in
          let s := my_printf (lf EmptyString) [] s in
          Continue rx (print_menu s)
      else
        let s := my_printf ("Option not found. Try again..." ++ crlf (lf EmptyString)) [] s in
        let s := my_printf (lf EmptyString) [] s in
        Continue rx (print_menu s)
  end.

(** The [while (1)] loop; one unit of fuel per pass. *)
Fixpoint settings_menu_loop
  (fuel : nat) (system_state : SystemState) (rx : text) (s : state) : menu_outcome :=
  match fuel with
  | O => MenuOutOfFuel
  | S fuel' =>
      match settings_menu_iteration rx s with
      | Continue rx s => settings_menu_loop fuel' system_state rx s
      | Return rx s => MenuReturned STATE_RUN rx s
      | Block s => MenuBlocked system_state s
      end
  end.

Definition settings_menu
  (fuel : nat) (system_state : SystemState) (rx : text) (s : state) : menu_outcome :=
  let s := my_CAN_stop s in
  let s := print_menu s in
  settings_menu_loop fuel system_state rx s.

End Menu.

(** ** Vocabulary of the properties *)

(** The initialisers of the file-scope variables.  [hfdcan1] is set up by
    generated start-up code outside this module; its timing is [init]. *)
Definition zero_frame : my_CAN_Frame :=
  {| Identifier := 0; DataLength := 0; Data := repeat 0 8 |}.

Definition initial_state (init : FDCAN_InitTypeDef) : state :=
  {| software_CAN_buffer_overflow := false;
     hardware_CAN_buffer_overflow := false;
     head := 0;
     tail := 0;
     CAN_ring_buffer := repeat zero_frame (Z.to_nat SOFTWARE_CAN_BUFFER_SIZE);
     can_status := {| is_set := false; baudrate := 0; filter_id := 0; mask_id := 0 |};
     sFilterConfig :=
       {| IdType := FDCAN_STANDARD_ID; FilterIndex := 0;
          FilterType := FDCAN_FILTER_RANGE; FilterConfig := FDCAN_FILTER_DISABLE;
          FilterID1 := 0; FilterID2 := 0 |};
     hfdcan1_Init := init;
     hal_calls := [];
     uart_tx := [] |}.

(** The indices are inside the array, which has its declared size. *)
Definition ring_wf (s : state) : Prop :=
  0 <= head s < SOFTWARE_CAN_BUFFER_SIZE
  /\ 0 <= tail s < SOFTWARE_CAN_BUFFER_SIZE
  /\ Z.of_nat (length (CAN_ring_buffer s)) = SOFTWARE_CAN_BUFFER_SIZE.

(** Number of frames stored and not yet read. *)
Definition occupancy (s : state) : nat :=
  Z.to_nat ((head s - tail s) mod SOFTWARE_CAN_BUFFER_SIZE).

(** The [k]-th slot counted from [tail]. *)
Definition slot (s : state) (k : nat) : my_CAN_Frame :=
  nth (Z.to_nat ((tail s + Z.of_nat k) mod SOFTWARE_CAN_BUFFER_SIZE))
    (CAN_ring_buffer s) zero_frame.

(** The unread frames, oldest first. *)
Definition unread (s : state) : list my_CAN_Frame :=
  map (slot s) (seq 0 (occupancy s)).

(** Successive insertions, as successive iterations of the callback loop
    perform them. *)
Fixpoint store_frames (frames : list my_CAN_Frame) (s : state) : result state :=
  match frames with
  | [] => Ok s
  | frame :: rest => do s <- store_frame frame s; store_frames rest s
  end.

(** [n] successive calls of [read_frame_from_software_CAN_buffer], with
    what each one returned. *)
Fixpoint read_frames (n : nat) (s : state)
  : result (list (option my_CAN_Frame) * state) :=
  match n with
  | O => Ok ([], s)
  | S n' =>
      do r <- read_frame_from_software_CAN_buffer s;
      do rs <- read_frames n' (snd r);
      Ok (fst r :: fst rs, snd rs)
  end.

(** [Data] has the 8 elements of its declaration. *)
Definition data_array (f : my_CAN_Frame) : Prop := length (Data f) = 8%nat.

(** The data length of a frame fits its payload array. *)
Definition payload_fits (f : my_CAN_Frame) : Prop := DataLength f <= 8.

(** The state without the log of HAL calls: what the program and the
    controller hold, not how they got there. *)
Definition forget_calls (s : state) : state := set_hal_calls [] s.

Definition is_start (c : hal_call) : bool :=
  match c with HAL_FDCAN_Start => true | _ => false end.

Definition is_notification_enable (c : hal_call) : bool :=
  match c with HAL_FDCAN_ActivateNotification _ _ => true | _ => false end.

Definition is_successful_read (c : hal_call) : bool :=
  match c with HAL_FDCAN_GetRxMessage _ HAL_OK => true | _ => false end.

(** The HAL calls of one probe of the auto-configuration at entry [e]. *)
Definition probe_calls (e : my_CAN_BitTiming) : list hal_call :=
  [ HAL_FDCAN_Init (timing_of e);
    HAL_FDCAN_ConfigGlobalFilter
      FDCAN_ACCEPT_IN_RX_FIFO0 FDCAN_REJECT FDCAN_REJECT_REMOTE FDCAN_REJECT_REMOTE;
    HAL_FDCAN_Init (timing_of e);
    HAL_FDCAN_Start;
    HAL_Delay WAIT_FOR_TRAFFIC;
    HAL_FDCAN_GetRxFifoFillLevel FDCAN_RX_FIFO0;
    HAL_FDCAN_Stop ].

(** The state after one probe at entry [e]. *)
Definition probed (e : my_CAN_BitTiming) (to_print : bool) (s : state) : state :=
  set_hal_calls (hal_calls s ++ probe_calls e)
    (set_hfdcan1_Init (timing_of e)
       (if to_print
        then my_printf ("Trying Baud Rate: %d" ++ crlf EmptyString)
               [timing_baudrate e] s
        else s)).

(** The frame the receive callback assembles from a queued message. *)
Definition rx_frame (m : RxMessage) : my_CAN_Frame :=
  let rxData :=
    firstn 8 (rxPayload m ++ skipn (length (rxPayload m)) (repeat 0 8)) in
  let n := Z.to_nat (RxDataLength (rxHeader m)) in
  {| Identifier := RxIdentifier (rxHeader m);
     DataLength := uint8 (RxDataLength (rxHeader m));
     Data := firstn n rxData ++ skipn n (repeat 0 8) |}.

(** The reads of one callback invocation on a queue of depth [d], with
    [n] iterations allowed: one successful read per message taken, then,
    if the queue ran empty first, the read that reports it. *)
Definition read_calls (n d : nat) : list hal_call :=
  repeat (HAL_FDCAN_GetRxMessage FDCAN_RX_FIFO0 HAL_OK) (Nat.min n d)
  ++ (if (d <? n)%nat then [HAL_FDCAN_GetRxMessage FDCAN_RX_FIFO0 HAL_ERROR] else []).

(** The data length a message reports fits the payload array. *)
Definition length_fits (m : RxMessage) : Prop := RxDataLength (rxHeader m) <= 8.

(** The report of one frame as the format strings prescribe it: the
    head line, one [" %02X"] per payload byte, the line end and an empty
    line.  [format] is the unbounded conversion, without the 128-byte
    buffer of [my_printf]. *)
Definition byte_text (b : Z) : text := format Literal " %02X" [b].

Definition frame_line (f : my_CAN_Frame) : text :=
  format Literal "ID: 0x%03X, DLC: %d, Data:" [Identifier f; DataLength f]
  ++ concat (map byte_text (firstn (Z.to_nat (DataLength f)) (Data f)))
  ++ [CR; LF; LF].

(** An overflow notice: the message between the two debug banners. *)
Definition overflow_notice (message : string) : text :=
  [LF; LF; LF] ++ lit "$$$$$$$$$ DEBUG print START $$$$$$$$$" ++ [CR; LF]
  ++ lit message ++ [CR; LF]
  ++ lit "$$$$$$$$$ DEBUG print END $$$$$$$$$$$" ++ [CR; LF; LF; LF].

Definition hardware_notice : text := overflow_notice "Hardware CAN FIFO overflow!".
Definition software_notice : text := overflow_notice "Software CAN buffer overflow!".

(** Sample data for the concrete instances. *)
Definition sample_timing : FDCAN_InitTypeDef :=
  {| NominalPrescaler := 2; NominalTimeSeg1 := 34; NominalTimeSeg2 := 5 |}.

Definition numbered_frame (k : nat) : my_CAN_Frame :=
  {| Identifier := Z.of_nat k; DataLength := 1; Data := Z.of_nat k mod 256 :: repeat 0 7 |}.

(** A simulated bus that is silent at every rate, and one with traffic at
    500 kbit/s, the timing of table entry 9. *)
Definition silent_bus (_ : FDCAN_InitTypeDef) : Z := 0.

Definition bus_at_500k (init : FDCAN_InitTypeDef) : Z :=
  if (NominalPrescaler init =? 2) && (NominalTimeSeg1 init =? 34) then 3 else 0.

(** The interrupt bits of the receive FIFO 0 sources the firmware names. *)
Definition sample_interrupt_mask (it : FDCAN_interrupt) : Z :=
  match it with
  | FDCAN_IT_RX_FIFO0_NEW_MESSAGE => 1
  | FDCAN_IT_RX_FIFO0_MESSAGE_LOST => 8
  end.

Definition sample_message (k : nat) (len : Z) : RxMessage :=
  {| rxHeader := {| RxIdentifier := Z.of_nat k; RxDataLength := len |};
     rxPayload := repeat (Z.of_nat k mod 256) (Z.to_nat len) |}.

Definition frame_0x123 : my_CAN_Frame :=
  {| Identifier := 291; DataLength := 3; Data := [170; 187; 204; 0; 0; 0; 0; 0] |}.

(** The ring holding [frame] alone in slot 0. *)
Definition ring_with (frame : my_CAN_Frame) : state :=
  set_head 1
    (set_CAN_ring_buffer (frame :: repeat zero_frame 255)
       (initial_state sample_timing)).

(** The entries a sweep of the auto-configuration probes on a given bus:
    the table up to and including the first entry with traffic. *)
Fixpoint attempted (fill : FDCAN_InitTypeDef -> Z) (table : list my_CAN_BitTiming)
  : list my_CAN_BitTiming :=
  match table with
  | [] => []
  | e :: rest => e :: (if fill (timing_of e) >? 0 then [] else attempted fill rest)
  end.

(** The controller reports a queued frame after a probe at entry [e]. *)
Definition has_traffic (fill : FDCAN_InitTypeDef -> Z) (e : my_CAN_BitTiming) : bool :=
  fill (timing_of e) >? 0.

(** The line printed before a probe when [to_print] is set. *)
Definition trying_line (e : my_CAN_BitTiming) : text :=
  format Literal ("Trying Baud Rate: %d" ++ crlf EmptyString) [timing_baudrate e].

(** What the log of HAL calls says of the controller: whether the last
    of its start and stop calls is a start, and whether the last change
    of the receive notification enabled it. *)
Definition controller_running (calls : list hal_call) : bool :=
  fold_left
    (fun running c =>
       match c with
       | HAL_FDCAN_Start => true
       | HAL_FDCAN_Stop => false
       | _ => running
       end) calls false.

Definition notification_enabled (calls : list hal_call) : bool :=
  fold_left
    (fun enabled c =>
       match c with
       | HAL_FDCAN_ActivateNotification _ _ => true
       | HAL_FDCAN_DeactivateNotification _ => false
       | _ => enabled
       end) calls false.

(** The text of a status query. *)
Definition status_text (st : my_CAN_Status) : text :=
  (if is_set st
   then lit "CAN configured." ++ [CR; LF]
        ++ format Literal ("Baud Rate: %d" ++ crlf EmptyString) [baudrate st]
   else lit "CAN not configured." ++ [CR; LF]
        ++ lit "Baud Rate not set." ++ [CR; LF])
  ++ format Literal ("Filter ID: 0x%03x" ++ crlf EmptyString) [filter_id st]
  ++ format Literal ("Mask ID: 0x%03x" ++ crlf EmptyString) [mask_id st].

(** The overflow notices a report sends for the given flags. *)
Definition notices (hardware software : bool) : text :=
  (if hardware then hardware_notice else [])
  ++ (if software then software_notice else []).

(** Successive invocations of the receive callback, each with the
    contents of the hardware queue and the interrupt flags it finds. *)
Fixpoint callbacks
  (interrupt_mask : FDCAN_interrupt -> Z) (events : list (list RxMessage * Z))
  (s : state) : result state :=
  match events with
  | [] => Ok s
  | (hfdcan, RxFifo0ITs) :: rest =>
      do r <- HAL_FDCAN_RxFifo0Callback interrupt_mask hfdcan RxFifo0ITs s;
      callbacks interrupt_mask rest (snd r)
  end.

(** The message-lost bit of an interrupt word. *)
Definition message_lost (interrupt_mask : FDCAN_interrupt -> Z) (RxFifo0ITs : Z) : bool :=
  negb (Z.land RxFifo0ITs (interrupt_mask FDCAN_IT_RX_FIFO0_MESSAGE_LOST) =? 0).

(** A message as the data model has it: between 0 and 8 bytes. *)
Definition message_in_model (m : RxMessage) : Prop :=
  0 <= RxDataLength (rxHeader m) <= 8.

(** The controller is idle and the ring empty, as the menu keeps them. *)
Definition capture_idle (s : state) : Prop :=
  controller_running (hal_calls s) = false
  /\ notification_enabled (hal_calls s) = false
  /\ head s = 0
  /\ tail s = 0.

(** A line terminator of [my_scanf]. *)
Definition line_end (ch : ascii) : Prop := ch = CR \/ ch = LF.

(** A stand-in for [vsscanf] in the examples: [" %c"] gives the first
    character of the line, [" %d"] the value of a line of decimal digits,
    other formats store nothing. *)
Definition sample_vsscanf (buf : text) (fmt : string) : option Z :=
  if String.eqb fmt " %c" then
    match buf with
    | ch :: _ => Some (char_code ch)
    | [] => None
    end
  else if String.eqb fmt " %d" then
    Some (fold_left (fun acc ch => 10 * acc + (char_code ch - 48)) buf 0)
  else None.

(** ** The capture ring *)

Ltac ring_arith :=
  unfold SOFTWARE_CAN_BUFFER_SIZE, uint16, uint8 in *;
  Z.div_mod_to_equations; lia.

Lemma next_index (i : Z) :
  uint16 (Z.land (i + 1) (SOFTWARE_CAN_BUFFER_SIZE - 1))
  = (i + 1) mod SOFTWARE_CAN_BUFFER_SIZE.
Proof.
  change (SOFTWARE_CAN_BUFFER_SIZE - 1) with (Z.ones 8).
  rewrite Z.land_ones by lia.
  change (2 ^ 8) with SOFTWARE_CAN_BUFFER_SIZE.
  ring_arith.
Qed.

Lemma initial_state_wf (init : FDCAN_InitTypeDef) : ring_wf (initial_state init).
Proof. repeat split; cbn; try lia; reflexivity. Qed.

Lemma length_unread (s : state) : length (unread s) = occupancy s.
Proof. unfold unread. now rewrite length_map, length_seq. Qed.

Lemma occupancy_bound (s : state) : (occupancy s < 256)%nat.
Proof. unfold occupancy. ring_arith. Qed.

Lemma unread_empty (s : state) : head s = tail s -> unread s = [].
Proof.
  intros E. unfold unread, occupancy. rewrite E, Z.sub_diag. reflexivity.
Qed.

(** The ring is full exactly when it holds 255 frames. *)
Lemma full_iff (s : state) :
  ring_wf s ->
  (head s + 1) mod SOFTWARE_CAN_BUFFER_SIZE = tail s <-> occupancy s = 255%nat.
Proof.
  intros (Hh & Ht & _). unfold occupancy. split; intros E; ring_arith.
Qed.

Lemma store_frame_full (f : my_CAN_Frame) (s : state) :
  (head s + 1) mod SOFTWARE_CAN_BUFFER_SIZE = tail s ->
  store_frame f s = Ok (set_software_CAN_buffer_overflow true s).
Proof.
  intros E. unfold store_frame. rewrite next_index, E, Z.eqb_refl. reflexivity.
Qed.

Lemma store_frame_room (f : my_CAN_Frame) (s : state) :
  ring_wf s ->
  (head s + 1) mod SOFTWARE_CAN_BUFFER_SIZE <> tail s ->
  store_frame f s
  = Ok (set_head ((head s + 1) mod SOFTWARE_CAN_BUFFER_SIZE)
          (set_CAN_ring_buffer
             (<[Z.to_nat (head s) := f]> (CAN_ring_buffer s)) s)).
Proof.
  intros (Hh & Ht & Hl) N. unfold store_frame, array_set.
  rewrite next_index.
  destruct (Z.eqb_spec ((head s + 1) mod SOFTWARE_CAN_BUFFER_SIZE) (tail s));
    [contradiction|].
  replace ((0 <=? head s) && (head s <? Z.of_nat (length (CAN_ring_buffer s))))
    with true by (symmetry; apply andb_true_iff; split; lia).
  reflexivity.
Qed.

(** Storing into a ring with room appends to the unread frames and
    touches none of them. *)
Lemma unread_store (f : my_CAN_Frame) (s : state) :
  ring_wf s ->
  (head s + 1) mod SOFTWARE_CAN_BUFFER_SIZE <> tail s ->
  unread (set_head ((head s + 1) mod SOFTWARE_CAN_BUFFER_SIZE)
            (set_CAN_ring_buffer
               (<[Z.to_nat (head s) := f]> (CAN_ring_buffer s)) s))
  = unread s ++ [f].
Proof.
  intros (Hh & Ht & Hl) N. unfold unread, occupancy. cbn [head tail set_head set_CAN_ring_buffer].
  replace (Z.to_nat (((head s + 1) mod SOFTWARE_CAN_BUFFER_SIZE - tail s)
                       mod SOFTWARE_CAN_BUFFER_SIZE))
    with (S (Z.to_nat ((head s - tail s) mod SOFTWARE_CAN_BUFFER_SIZE)))
    by ring_arith.
  rewrite seq_S, map_app. cbn [map]. f_equal.
  - apply map_ext_in. intros k Hk. apply in_seq in Hk.
    unfold slot. cbn [tail CAN_ring_buffer set_head set_CAN_ring_buffer].
    rewrite !nth_lookup, list_lookup_insert_ne; [reflexivity|].
    ring_arith.
  - f_equal. unfold slot. cbn [tail CAN_ring_buffer set_head set_CAN_ring_buffer plus].
    replace (Z.to_nat ((tail s + Z.of_nat
               (Z.to_nat ((head s - tail s) mod SOFTWARE_CAN_BUFFER_SIZE)))
               mod SOFTWARE_CAN_BUFFER_SIZE))
      with (Z.to_nat (head s)) by ring_arith.
    apply nth_lookup_Some, list_lookup_insert_eq. lia.
Qed.

(** One insertion, whatever the state of the ring: the unread frames are
    kept as they are, the new frame goes behind them or is dropped. *)
Lemma store_frame_spec (f : my_CAN_Frame) (s : state) :
  ring_wf s ->
  exists s',
    store_frame f s = Ok s' /\ ring_wf s'
    /\ tail s' = tail s
    /\ hardware_CAN_buffer_overflow s' = hardware_CAN_buffer_overflow s
    /\ hal_calls s' = hal_calls s /\ uart_tx s' = uart_tx s
    /\ ((occupancy s < 255)%nat
        /\ unread s' = unread s ++ [f]
        /\ software_CAN_buffer_overflow s' = software_CAN_buffer_overflow s
        \/
        occupancy s = 255%nat
        /\ unread s' = unread s
        /\ CAN_ring_buffer s' = CAN_ring_buffer s
        /\ software_CAN_buffer_overflow s' = true).
Proof.
  intros W.
  destruct (Z.eq_dec ((head s + 1) mod SOFTWARE_CAN_BUFFER_SIZE) (tail s)) as [E|N].
  - eexists. split; [apply (store_frame_full f s E)|].
    split; [exact W|]. repeat (split; [reflexivity|]).
    right. split; [now apply full_iff|]. repeat split.
  - eexists. split; [apply (store_frame_room f s W N)|].
    split.
    { destruct W as (Hh & Ht & Hl). repeat split; cbn; try ring_arith.
      now rewrite length_insert. }
    repeat (split; [reflexivity|]).
    left. split.
    { pose proof (occupancy_bound s). pose proof (full_iff s W) as F.
      destruct (Nat.eq_dec (occupancy s) 255%nat) as [E|]; [|lia].
      apply F in E. contradiction. }
    split; [now apply unread_store|reflexivity].
Qed.

(** A batch that fits is stored whole, behind what was there. *)
Lemma store_frames_fit (fs : list my_CAN_Frame) :
  forall s : state,
    ring_wf s ->
    (occupancy s + length fs <= 255)%nat ->
    exists s',
      store_frames fs s = Ok s' /\ ring_wf s'
      /\ unread s' = unread s ++ fs
      /\ tail s' = tail s
      /\ software_CAN_buffer_overflow s' = software_CAN_buffer_overflow s.
Proof.
  induction fs as [|f fs IH]; intros s W L.
  - exists s. rewrite app_nil_r. repeat split; try reflexivity; apply W.
  - cbn [length] in L.
    destruct (store_frame_spec f s W)
      as (s1 & E1 & W1 & T1 & _ & _ & _ & [(_ & U1 & F1)|(Full & _)]); [|lia].
    destruct (IH s1 W1) as (s2 & E2 & W2 & U2 & T2 & F2).
    { rewrite <- length_unread, U1, length_app, length_unread. cbn. lia. }
    exists s2. cbn [store_frames]. rewrite E1. cbn [bind].
    repeat split; try apply W2; try congruence.
    rewrite U2, U1, <- app_assoc. reflexivity.
Qed.

Lemma read_frame_empty (s : state) :
  head s = tail s ->
  read_frame_from_software_CAN_buffer s = Ok (None, s).
Proof.
  intros E. unfold read_frame_from_software_CAN_buffer.
  now rewrite E, Z.eqb_refl.
Qed.

(** Reading from a ring that is not empty returns the oldest unread frame
    and leaves the others. *)
Lemma read_frame_nonempty (s : state) :
  ring_wf s ->
  head s <> tail s ->
  exists (f : my_CAN_Frame) (s' : state),
    read_frame_from_software_CAN_buffer s = Ok (Some f, s')
    /\ s' = set_tail ((tail s + 1) mod SOFTWARE_CAN_BUFFER_SIZE) s
    /\ ring_wf s'
    /\ unread s = f :: unread s'.
Proof.
  intros (Hh & Ht & Hl) N.
  assert (Hlk : exists f, CAN_ring_buffer s !! Z.to_nat (tail s) = Some f).
  { apply lookup_lt_is_Some_2. lia. }
  destruct Hlk as (f & Hf).
  exists f, (set_tail ((tail s + 1) mod SOFTWARE_CAN_BUFFER_SIZE) s).
  split.
  { unfold read_frame_from_software_CAN_buffer, array_get.
    destruct (Z.eqb_spec (head s) (tail s)); [contradiction|].
    replace (0 <=? tail s) with true by (symmetry; apply Z.leb_le; lia).
    rewrite Hf, next_index. reflexivity. }
  split; [reflexivity|].
  split.
  { repeat split; cbn; try ring_arith. }
  unfold unread, occupancy. cbn [head tail set_tail].
  replace (Z.to_nat ((head s - tail s) mod SOFTWARE_CAN_BUFFER_SIZE))
    with (S (Z.to_nat ((head s - (tail s + 1) mod SOFTWARE_CAN_BUFFER_SIZE)
                         mod SOFTWARE_CAN_BUFFER_SIZE)))
    by ring_arith.
  cbn [seq map]. f_equal.
  - unfold slot. rewrite Z.add_0_r.
    replace (tail s mod SOFTWARE_CAN_BUFFER_SIZE) with (tail s) by ring_arith.
    now apply nth_lookup_Some.
  - rewrite <- seq_shift, map_map. apply map_ext. intros k.
    unfold slot. cbn [tail CAN_ring_buffer set_tail]. f_equal. f_equal.
    replace (Z.of_nat (S k)) with (1 + Z.of_nat k) by lia.
    rewrite Z.add_assoc, (Z.add_mod_idemp_l (tail s + 1)) by (unfold SOFTWARE_CAN_BUFFER_SIZE; lia).
    reflexivity.
Qed.

(** Reading until the ring reports empty returns the unread frames in
    order; the call after the last frame finds the ring empty. *)
Lemma read_frames_all (n : nat) :
  forall s : state,
    ring_wf s ->
    occupancy s = n ->
    exists s',
      read_frames (n + 1) s = Ok (map Some (unread s) ++ [None], s')
      /\ ring_wf s' /\ head s' = tail s' /\ head s' = head s
      /\ software_CAN_buffer_overflow s' = software_CAN_buffer_overflow s
      /\ hardware_CAN_buffer_overflow s' = hardware_CAN_buffer_overflow s.
Proof.
  induction n as [|n IH]; intros s W O.
  - assert (E : head s = tail s).
    { destruct W as (Hh & Ht & _). unfold occupancy in O. ring_arith. }
    exists s. cbn [Nat.add read_frames]. rewrite (read_frame_empty s E).
    rewrite (unread_empty s E). repeat split; try apply W; exact E.
  - assert (N : head s <> tail s).
    { intros E. unfold occupancy in O. rewrite E, Z.sub_diag in O. discriminate. }
    destruct (read_frame_nonempty s W N) as (f & s1 & R & Es1 & W1 & U).
    destruct (IH s1 W1) as (s2 & R2 & W2 & E2 & H2 & F2 & G2).
    { rewrite <- length_unread in *. rewrite U in O. cbn in O. lia. }
    exists s2. change (S n + 1)%nat with (S (n + 1)). cbn [read_frames].
    rewrite R. cbn [bind snd fst]. rewrite R2. cbn [bind snd fst].
    rewrite U. repeat split; try apply W2; try assumption.
    + rewrite H2, Es1. reflexivity.
    + rewrite F2, Es1. reflexivity.
    + rewrite G2, Es1. reflexivity.
Qed.

(** C1, with the capacity the ring has.  The ring of [SOFTWARE_CAN_BUFFER_SIZE = 256] slots
    holds 255 frames.  An insertion never changes the frames that are
    still unread: it puts the new frame behind them or, when 255 are
    unread, drops it and raises the software-overflow flag.  Starting
    from an empty ring, 255 insertions with no read in between all
    succeed and leave the flag as it was, the 256th is dropped, sets the
    flag and leaves the array untouched; after exactly one read, which
    returns the oldest frame, the next insertion succeeds. *)
Theorem capture_buffer_capacity
  (s : state) (fs : list my_CAN_Frame) (f g : my_CAN_Frame) :
  ring_wf s ->
  head s = tail s ->
  length fs = 255%nat ->
  (forall (x : state) (h : my_CAN_Frame),
      ring_wf x ->
      exists x',
        store_frame h x = Ok x'
        /\ (unread x' = unread x ++ [h]
            \/ unread x' = unread x /\ software_CAN_buffer_overflow x' = true))
  /\ exists (s1 s2 s3 s4 : state) (oldest : my_CAN_Frame),
      store_frames fs s = Ok s1
      /\ unread s1 = fs
      /\ software_CAN_buffer_overflow s1 = software_CAN_buffer_overflow s
      /\ store_frame f s1 = Ok s2
      /\ software_CAN_buffer_overflow s2 = true
      /\ unread s2 = fs
      /\ CAN_ring_buffer s2 = CAN_ring_buffer s1
      /\ read_frame_from_software_CAN_buffer s2 = Ok (Some oldest, s3)
      /\ hd_error fs = Some oldest
      /\ store_frame g s3 = Ok s4
      /\ unread s4 = tl fs ++ [g].
Proof.
  intros W E L. split.
  { intros x h Wx.
    destruct (store_frame_spec h x Wx)
      as (x' & Ex & _ & _ & _ & _ & _ & [(_ & U & _)|(_ & U & _ & F)]);
      exists x'; (split; [exact Ex|]); [left|right]; auto. }
  assert (O : occupancy s = 0%nat).
  { rewrite <- length_unread, (unread_empty s E). reflexivity. }
  destruct (store_frames_fit fs s W) as (s1 & E1 & W1 & U1 & _ & F1); [lia|].
  rewrite (unread_empty s E) in U1. cbn [app] in U1.
  assert (O1 : occupancy s1 = 255%nat).
  { rewrite <- length_unread, U1. exact L. }
  destruct (store_frame_spec f s1 W1)
    as (s2 & E2 & W2 & T2 & _ & _ & _ & [(Lt & _)|(_ & U2 & B2 & F2)]); [lia|].
  assert (N2 : head s2 <> tail s2).
  { intros C. pose proof (unread_empty s2 C) as U.
    rewrite U2, U1 in U. rewrite U in L. discriminate. }
  destruct (read_frame_nonempty s2 W2 N2) as (oldest & s3 & R3 & _ & W3 & U3).
  assert (O3 : occupancy s3 = 254%nat).
  { rewrite <- length_unread.
    assert (K : length (unread s2) = 255%nat) by (rewrite U2, U1; exact L).
    rewrite U3 in K. cbn in K. lia. }
  destruct (store_frame_spec g s3 W3)
    as (s4 & E4 & _ & _ & _ & _ & _ & [(_ & U4 & _)|(Full & _)]); [|lia].
  exists s1, s2, s3, s4, oldest.
  rewrite U2, U1 in U3.
  repeat (split; [first [assumption | congruence]|]).
  split; [rewrite U3; reflexivity|].
  split; [exact E4|]. rewrite U4, U3. reflexivity.
Qed.

(** C2.  Frames stored without overflow are read back exactly, oldest
    first, behind whatever was unread before; the read that follows the
    last of them reports the ring empty. *)
Theorem capture_buffer_fifo (s : state) (fs : list my_CAN_Frame) :
  ring_wf s ->
  (occupancy s + length fs <= 255)%nat ->
  exists s1 s2 : state,
    store_frames fs s = Ok s1
    /\ read_frames (length (unread s ++ fs) + 1) s1
       = Ok (map Some (unread s ++ fs) ++ [None], s2).
Proof.
  intros W L.
  destruct (store_frames_fit fs s W L) as (s1 & E1 & W1 & U1 & _).
  destruct (read_frames_all (length (unread s ++ fs)) s1 W1) as (s2 & R & _).
  { rewrite <- length_unread, U1. reflexivity. }
  exists s1, s2. split; [exact E1|]. rewrite <- U1. rewrite <- U1 in R. exact R.
Qed.

(** C1, counterexample to a capacity of 256: of 256 frames stored into the
    empty ring the 256th is dropped and raises the flag. *)
Lemma capture_buffer_256th_dropped :
  let fs := map numbered_frame (seq 1 256) in
  let s := initial_state sample_timing in
  (exists s',
      store_frames fs s = Ok s'
      /\ unread s' = map numbered_frame (seq 1 255)
      /\ software_CAN_buffer_overflow s' = true)
  /\ ~ (exists s',
          store_frames fs s = Ok s'
          /\ unread s' = fs
          /\ software_CAN_buffer_overflow s' = false).
Proof.
  intros fs s. split.
  - eexists. split; [vm_compute; reflexivity|]. split; vm_compute; reflexivity.
  - intros (s' & E & _ & F). vm_compute in E.
    injection E as E. subst s'. vm_compute in F. discriminate F.
Qed.

Lemma capture_buffer_capacity_witness :
  let s := initial_state sample_timing in
  let fs := map numbered_frame (seq 1 255) in
  let f := numbered_frame 256 in
  let g := numbered_frame 257 in
  ring_wf s /\ head s = tail s /\ length fs = 255%nat
  /\ exists (s1 s2 s3 s4 : state) (oldest : my_CAN_Frame),
      store_frames fs s = Ok s1
      /\ unread s1 = fs
      /\ software_CAN_buffer_overflow s1 = software_CAN_buffer_overflow s
      /\ store_frame f s1 = Ok s2
      /\ software_CAN_buffer_overflow s2 = true
      /\ unread s2 = fs
      /\ CAN_ring_buffer s2 = CAN_ring_buffer s1
      /\ read_frame_from_software_CAN_buffer s2 = Ok (Some oldest, s3)
      /\ hd_error fs = Some oldest
      /\ store_frame g s3 = Ok s4
      /\ unread s4 = tl fs ++ [g].
Proof.
  intros s fs f g.
  assert (W : ring_wf s) by (repeat split; cbn; try lia; reflexivity).
  assert (E : head s = tail s) by reflexivity.
  assert (L : length fs = 255%nat) by reflexivity.
  split; [exact W|]. split; [exact E|]. split; [exact L|].
  exact (proj2 (capture_buffer_capacity s fs f g W E L)).
Defined.

Lemma capture_buffer_fifo_witness :
  let s := initial_state sample_timing in
  let A := numbered_frame 10 in
  let B := numbered_frame 20 in
  let C := numbered_frame 30 in
  ring_wf s /\ (occupancy s + length [A; B; C] <= 255)%nat
  /\ exists s1 s2 : state,
      store_frames [A; B; C] s = Ok s1
      /\ read_frames 4 s1 = Ok ([Some A; Some B; Some C; None], s2).
Proof.
  intros s A B C.
  assert (W : ring_wf s) by (repeat split; cbn; try lia; reflexivity).
  assert (L : (occupancy s + length [A; B; C] <= 255)%nat) by (vm_compute; lia).
  split; [exact W|]. split; [exact L|].
  exact (capture_buffer_fifo s [A; B; C] W L).
Defined.

(** ** Configuration: bit rate, filter, start and stop *)

Lemma baudrates_nbr_value : baudrates_nbr = 12.
Proof. reflexivity. Qed.

Lemma manual_configuration_loop_stored
  (table : list my_CAN_BitTiming) (b : Z) (s : state) :
  can_status (snd (manual_configuration_loop table b s))
  = fst (manual_configuration_loop table b s).
Proof.
  induction table as [|e rest IH]; cbn [manual_configuration_loop].
  - reflexivity.
  - destruct (timing_baudrate e =? b); cbn [negb]; [reflexivity|exact IH].
Qed.

Lemma manual_configuration_loop_hit (table : list my_CAN_BitTiming) (b : Z) (s : state) :
  In b (map timing_baudrate table) ->
  exists e : my_CAN_BitTiming,
    In e table /\ timing_baudrate e = b
    /\ manual_configuration_loop table b s
       = assign_status
           {| is_set := true; baudrate := b;
              filter_id := filter_id (can_status s);
              mask_id := mask_id (can_status s) |}
           (apply_timing e s).
Proof.
  induction table as [|e rest IH]; cbn [map In manual_configuration_loop].
  - intros [].
  - intros H. destruct (Z.eqb_spec (timing_baudrate e) b) as [E|N]; cbn [negb].
    + exists e. split; [now left|]. split; [exact E|reflexivity].
    + destruct H as [H|H]; [contradiction|].
      destruct (IH H) as (e' & I & B & R).
      exists e'. split; [now right|]. split; [exact B|exact R].
Qed.

Lemma manual_configuration_loop_miss (table : list my_CAN_BitTiming) (b : Z) (s : state) :
  ~ In b (map timing_baudrate table) ->
  manual_configuration_loop table b s
  = assign_status
      {| is_set := false; baudrate := 0;
         filter_id := filter_id (can_status s);
         mask_id := mask_id (can_status s) |} s.
Proof.
  induction table as [|e rest IH]; cbn [map In manual_configuration_loop].
  - reflexivity.
  - intros H. destruct (Z.eqb_spec (timing_baudrate e) b) as [E|N]; cbn [negb].
    + exfalso. apply H. now left.
    + apply IH. intros C. apply H. now right.
Qed.

(** C4.  Manual configuration with a bit rate of the table returns and
    stores a status that is configured at that rate; with any other value
    it returns and stores an unconfigured status with rate 0.  The filter
    and the mask are those held before the call. *)
Theorem manual_configuration_status (b : Z) (s : state) :
  (In b (map timing_baudrate can_timings) ->
   fst (my_CAN_manual_configuration b s)
   = {| is_set := true; baudrate := b;
        filter_id := filter_id (can_status s);
        mask_id := mask_id (can_status s) |})
  /\ (~ In b (map timing_baudrate can_timings) ->
      fst (my_CAN_manual_configuration b s)
      = {| is_set := false; baudrate := 0;
           filter_id := filter_id (can_status s);
           mask_id := mask_id (can_status s) |})
  /\ can_status (snd (my_CAN_manual_configuration b s))
     = fst (my_CAN_manual_configuration b s).
Proof.
  unfold my_CAN_manual_configuration. split; [|split].
  - intros H. destruct (manual_configuration_loop_hit can_timings b s H)
      as (e & _ & _ & R).
    rewrite R. reflexivity.
  - intros H. rewrite (manual_configuration_loop_miss can_timings b s H).
    reflexivity.
  - apply manual_configuration_loop_stored.
Qed.

(** On a hit the controller handle receives the timing of the matching
    entry. *)
Lemma manual_configuration_timing (b : Z) (s : state) :
  In b (map timing_baudrate can_timings) ->
  exists e : my_CAN_BitTiming,
    In e can_timings /\ timing_baudrate e = b
    /\ hfdcan1_Init (snd (my_CAN_manual_configuration b s)) = timing_of e.
Proof.
  intros H. destruct (manual_configuration_loop_hit can_timings b s H)
    as (e & I & B & R).
  exists e. unfold my_CAN_manual_configuration. rewrite R. auto.
Qed.

(** C6.  Whatever the magnitude of the two arguments, the stored filter
    and mask are the arguments masked to 11 bits; the configured flag and
    the bit rate are not touched. *)
Theorem set_filter_mask_stores_11_bits (f m : Z) (s : state) :
  filter_id (can_status (snd (my_CAN_set_filter_mask f m s))) = Z.land f 2047
  /\ mask_id (can_status (snd (my_CAN_set_filter_mask f m s))) = Z.land m 2047
  /\ is_set (can_status (snd (my_CAN_set_filter_mask f m s))) = is_set (can_status s)
  /\ baudrate (can_status (snd (my_CAN_set_filter_mask f m s))) = baudrate (can_status s)
  /\ fst (my_CAN_set_filter_mask f m s) = can_status (snd (my_CAN_set_filter_mask f m s)).
Proof. repeat split. Qed.

Lemma land_2047_range (x : Z) : 0 <= Z.land x 2047 < 2048.
Proof.
  change 2047 with (Z.ones 11). rewrite Z.land_ones by lia.
  apply Z.mod_pos_bound. reflexivity.
Qed.

Example set_filter_mask_0x1FFF (s : state) :
  filter_id (fst (my_CAN_set_filter_mask 8191 4294967295 s)) = 2047
  /\ mask_id (fst (my_CAN_set_filter_mask 8191 4294967295 s)) = 2047.
Proof. split; reflexivity. Qed.

(** C7.  Unconfigured, [my_CAN_start] returns false and changes nothing:
    no HAL call is made.  Configured, it returns true after exactly these
    calls: initialisation, global reject filter, one standard-ID mask
    filter to receive FIFO 0 holding the stored filter and mask, one
    start, one activation of the new-message notification. *)
Theorem start_only_when_configured (s : state) :
  (is_set (can_status s) = false -> my_CAN_start s = (false, s))
  /\ (is_set (can_status s) = true ->
      exists (s' : state) (calls : list hal_call),
        my_CAN_start s = (true, s')
        /\ hal_calls s' = hal_calls s ++ calls
        /\ calls
           = [ HAL_FDCAN_Init (hfdcan1_Init s);
               HAL_FDCAN_ConfigGlobalFilter
                 FDCAN_REJECT FDCAN_REJECT FDCAN_REJECT_REMOTE FDCAN_REJECT_REMOTE;
               HAL_FDCAN_ConfigFilter
                 {| IdType := FDCAN_STANDARD_ID; FilterIndex := 0;
                    FilterType := FDCAN_FILTER_MASK;
                    FilterConfig := FDCAN_FILTER_TO_RXFIFO0;
                    FilterID1 := filter_id (can_status s);
                    FilterID2 := mask_id (can_status s) |};
               HAL_FDCAN_Start;
               HAL_FDCAN_ActivateNotification FDCAN_IT_RX_FIFO0_NEW_MESSAGE 0 ]
        /\ length (List.filter is_start calls) = 1%nat
        /\ length (List.filter is_notification_enable calls) = 1%nat
        /\ can_status s' = can_status s).
Proof.
  unfold my_CAN_start. split; intros E; rewrite E.
  - reflexivity.
  - eexists. eexists. split; [reflexivity|]. split.
    + unfold hal. cbn. rewrite <- !app_assoc. reflexivity.
    + repeat split.
Qed.

(** C8.  [my_CAN_stop] is total.  From every state it calls the
    controller stop and the notification disable, and sets both indices
    to 0, so that no frame is unread and the next read reports the ring
    empty; a second stop changes nothing in the state beyond repeating
    the two calls. *)
Theorem stop_resets_capture (s : state) :
  hal_calls (my_CAN_stop s)
  = hal_calls s
    ++ [HAL_FDCAN_Stop; HAL_FDCAN_DeactivateNotification FDCAN_IT_RX_FIFO0_NEW_MESSAGE]
  /\ head (my_CAN_stop s) = 0
  /\ tail (my_CAN_stop s) = 0
  /\ occupancy (my_CAN_stop s) = 0%nat
  /\ unread (my_CAN_stop s) = []
  /\ read_frame_from_software_CAN_buffer (my_CAN_stop s) = Ok (None, my_CAN_stop s)
  /\ forget_calls (my_CAN_stop (my_CAN_stop s)) = forget_calls (my_CAN_stop s)
  /\ hal_calls (my_CAN_stop (my_CAN_stop s))
     = hal_calls (my_CAN_stop s)
       ++ [HAL_FDCAN_Stop; HAL_FDCAN_DeactivateNotification FDCAN_IT_RX_FIFO0_NEW_MESSAGE].
Proof.
  split.
  { unfold my_CAN_stop, hal. cbn. rewrite <- app_assoc. reflexivity. }
  repeat split.
  unfold my_CAN_stop, hal. cbn. rewrite <- !app_assoc. reflexivity.
Qed.

(** Frames pending before the stop are discarded. *)
Example stop_discards_pending :
  exists s : state,
    store_frames [numbered_frame 1; numbered_frame 2] (initial_state sample_timing) = Ok s
    /\ unread s = [numbered_frame 1; numbered_frame 2]
    /\ unread (my_CAN_stop s) = [].
Proof. eexists. split; [reflexivity|]. split; reflexivity. Qed.

(** ** Automatic bit-rate detection *)

Section AutoConfiguration.

Variable RxFifo0FillLevel : FDCAN_InitTypeDef -> Z.

Lemma auto_configuration_loop_step
  (e : my_CAN_BitTiming) (rest : list my_CAN_BitTiming) (to_print : bool) (s : state) :
  auto_configuration_loop RxFifo0FillLevel (e :: rest) to_print s
  = if RxFifo0FillLevel (timing_of e) >? 0
    then assign_status
           {| is_set := true; baudrate := timing_baudrate e;
              filter_id := filter_id (can_status s);
              mask_id := mask_id (can_status s) |}
           (probed e to_print s)
    else auto_configuration_loop RxFifo0FillLevel rest to_print (probed e to_print s).
Proof.
  cbn [auto_configuration_loop]. unfold check_Fifo, probed, probe_calls, hal, apply_timing.
  cbn [hfdcan1_Init hal_calls set_hal_calls set_hfdcan1_Init].
  rewrite <- !app_assoc. cbn [app].
  destruct (RxFifo0FillLevel (timing_of e) >? 0); destruct to_print; reflexivity.
Qed.

Lemma probed_fields (e : my_CAN_BitTiming) (to_print : bool) (s : state) :
  can_status (probed e to_print s) = can_status s
  /\ hal_calls (probed e to_print s) = hal_calls s ++ probe_calls e
  /\ hfdcan1_Init (probed e to_print s) = timing_of e.
Proof. unfold probed. destruct to_print; repeat split. Qed.

(** A sweep that finds no traffic probes every entry once, in order. *)
Lemma auto_configuration_loop_silent (table : list my_CAN_BitTiming) (to_print : bool) :
  forall s : state,
    (forall e, In e table -> RxFifo0FillLevel (timing_of e) = 0) ->
    exists s' : state,
      auto_configuration_loop RxFifo0FillLevel table to_print s
      = ({| is_set := false; baudrate := 0;
            filter_id := filter_id (can_status s);
            mask_id := mask_id (can_status s) |}, s')
      /\ can_status s'
         = {| is_set := false; baudrate := 0;
              filter_id := filter_id (can_status s);
              mask_id := mask_id (can_status s) |}
      /\ hal_calls s' = hal_calls s ++ concat (map probe_calls table).
Proof.
  induction table as [|e rest IH]; intros s Quiet.
  - eexists. split; [reflexivity|]. split; [reflexivity|].
    cbn. now rewrite app_nil_r.
  - rewrite auto_configuration_loop_step.
    rewrite (Quiet e) by now left. cbn [Z.gtb Z.compare].
    destruct (probed_fields e to_print s) as (C & H & _).
    destruct (IH (probed e to_print s)) as (s' & R & C' & H').
    { intros e' I. apply Quiet. now right. }
    exists s'. rewrite R, C', H', C, H. cbn [map concat].
    rewrite <- app_assoc. auto.
Qed.

(** A sweep stops at the first entry with traffic. *)
Lemma auto_configuration_loop_detects
  (before : list my_CAN_BitTiming) (e : my_CAN_BitTiming)
  (after : list my_CAN_BitTiming) (to_print : bool) :
  forall s : state,
    (forall e', In e' before -> RxFifo0FillLevel (timing_of e') = 0) ->
    0 < RxFifo0FillLevel (timing_of e) ->
    exists s' : state,
      auto_configuration_loop RxFifo0FillLevel (before ++ e :: after) to_print s
      = ({| is_set := true; baudrate := timing_baudrate e;
            filter_id := filter_id (can_status s);
            mask_id := mask_id (can_status s) |}, s')
      /\ can_status s'
         = {| is_set := true; baudrate := timing_baudrate e;
              filter_id := filter_id (can_status s);
              mask_id := mask_id (can_status s) |}
      /\ hal_calls s' = hal_calls s ++ concat (map probe_calls (before ++ [e])).
Proof.
  induction before as [|b rest IH]; intros s Quiet Traffic.
  - cbn [app]. rewrite auto_configuration_loop_step.
    replace (RxFifo0FillLevel (timing_of e) >? 0) with true
      by (symmetry; apply Z.gtb_lt; exact Traffic).
    destruct (probed_fields e to_print s) as (C & H & _).
    eexists. split; [reflexivity|]. split; [reflexivity|].
    cbn [app map concat]. rewrite app_nil_r. exact H.
  - cbn [app]. rewrite auto_configuration_loop_step.
    rewrite (Quiet b) by now left. cbn [Z.gtb Z.compare].
    destruct (probed_fields b to_print s) as (C & H & _).
    destruct (IH (probed b to_print s)) as (s' & R & C' & H').
    { intros e' I. apply Quiet. now right. }
    { exact Traffic. }
    exists s'. rewrite R, C', H', C, H. cbn [map concat app].
    rewrite <- app_assoc. auto.
Qed.

(** C3.  With no traffic at any rate of the table, auto-configuration
    probes every entry once, in table order, and returns and stores an
    unconfigured status with rate 0.  With traffic at entry [k] and at
    no entry before it, it probes entries [0..k], in order and nothing
    after, and returns and stores a configured status with the rate of
    entry [k].  Either way the filter and the mask of the status are
    those stored before the call. *)
Theorem auto_configuration_sweep (to_print : bool) (s : state) :
  ((forall e, In e can_timings -> RxFifo0FillLevel (timing_of e) = 0) ->
   exists s' : state,
     my_CAN_auto_configuration RxFifo0FillLevel to_print s
     = ({| is_set := false; baudrate := 0;
           filter_id := filter_id (can_status s);
           mask_id := mask_id (can_status s) |}, s')
     /\ can_status s'
        = {| is_set := false; baudrate := 0;
             filter_id := filter_id (can_status s);
             mask_id := mask_id (can_status s) |}
     /\ hal_calls s' = hal_calls s ++ concat (map probe_calls can_timings))
  /\ (forall (k : nat) (e : my_CAN_BitTiming),
        can_timings !! k = Some e ->
        0 < RxFifo0FillLevel (timing_of e) ->
        (forall e', In e' (firstn k can_timings) ->
                    RxFifo0FillLevel (timing_of e') = 0) ->
        exists s' : state,
          my_CAN_auto_configuration RxFifo0FillLevel to_print s
          = ({| is_set := true; baudrate := timing_baudrate e;
                filter_id := filter_id (can_status s);
                mask_id := mask_id (can_status s) |}, s')
          /\ can_status s'
             = {| is_set := true; baudrate := timing_baudrate e;
                  filter_id := filter_id (can_status s);
                  mask_id := mask_id (can_status s) |}
          /\ hal_calls s'
             = hal_calls s ++ concat (map probe_calls (firstn (S k) can_timings))).
Proof.
  unfold my_CAN_auto_configuration. split.
  - apply auto_configuration_loop_silent.
  - intros k e Hk Traffic Quiet.
    pose proof (take_drop_middle can_timings k e Hk) as Split.
    pose proof (take_S_r can_timings k e Hk) as Tried.
    rewrite Tried.
    destruct (auto_configuration_loop_detects
                (firstn k can_timings) e (skipn (S k) can_timings) to_print s
                Quiet Traffic) as (s' & R & C & H).
    rewrite Split in R. exists s'. auto.
Qed.

End AutoConfiguration.

(** ** Frame ingest: the receive callback *)

(** Insertion and the call log do not see each other. *)
Lemma store_frame_calls (f : my_CAN_Frame) (s s' : state) (calls : list hal_call) :
  store_frame f s = Ok s' ->
  store_frame f (set_hal_calls calls s) = Ok (set_hal_calls calls s').
Proof.
  unfold store_frame. cbn [head tail CAN_ring_buffer set_hal_calls].
  destruct (_ =? tail s).
  - intros [= <-]. reflexivity.
  - destruct (array_set _ _ _); cbn [bind]; intros [= <-]. reflexivity.
Qed.

Lemma memcpy_rx (m : RxMessage) :
  memcpy (repeat 0 8)
    (firstn (length (repeat 0 8))
       (rxPayload m ++ skipn (length (rxPayload m)) (repeat 0 8)))
    (RxDataLength (rxHeader m))
  = if RxDataLength (rxHeader m) <=? 8 then Ok (Data (rx_frame m)) else OutOfBounds.
Proof.
  unfold memcpy.
  assert (L : length (firstn (length (repeat 0 8))
                        (rxPayload m ++ skipn (length (rxPayload m)) (repeat 0 8)))
              = 8%nat).
  { rewrite length_firstn, length_app, length_skipn, !repeat_length. lia. }
  rewrite L, repeat_length. change (Z.of_nat 8) with 8. rewrite andb_diag.
  reflexivity.
Qed.

(** One iteration on a queue that is not empty. *)
Lemma RxFifo0Callback_loop_step
  (n : nat) (m : RxMessage) (rest : list RxMessage) (s : state) :
  RxFifo0Callback_loop (S n) (m :: rest) s
  = if RxDataLength (rxHeader m) <=? 8 then
      do s <- store_frame (rx_frame m)
                (hal (HAL_FDCAN_GetRxMessage FDCAN_RX_FIFO0 HAL_OK) s);
      RxFifo0Callback_loop n rest s
    else OutOfBounds.
Proof.
  cbn [RxFifo0Callback_loop HAL_FDCAN_GetRxMessage_FIFO0 Data DataLength Identifier].
  rewrite memcpy_rx. destruct (_ <=? 8); reflexivity.
Qed.

(** The loop on messages whose length fits: it takes [min n d] messages,
    stores their frames one after the other, and logs its reads. *)
Lemma RxFifo0Callback_loop_fits (n : nat) :
  forall (hfdcan : list RxMessage) (s : state),
    ring_wf s ->
    Forall length_fits (firstn n hfdcan) ->
    exists s' : state,
      RxFifo0Callback_loop n hfdcan s = Ok (skipn n hfdcan, s')
      /\ ring_wf s'
      /\ store_frames (map rx_frame (firstn n hfdcan)) (forget_calls s)
         = Ok (forget_calls s')
      /\ hal_calls s' = hal_calls s ++ read_calls n (length hfdcan).
Proof.
  induction n as [|n IH]; intros hfdcan s W Fits.
  - exists s. cbn. rewrite app_nil_r. auto.
  - destruct hfdcan as [|m rest].
    + eexists. cbn [RxFifo0Callback_loop HAL_FDCAN_GetRxMessage_FIFO0 skipn firstn map store_frames].
      split; [reflexivity|]. split; [exact W|]. split; reflexivity.
    + cbn [firstn] in Fits. apply Forall_cons_1 in Fits as (Fm & Fits).
      rewrite RxFifo0Callback_loop_step.
      replace (RxDataLength (rxHeader m) <=? 8) with true
        by (symmetry; apply Z.leb_le; exact Fm).
      set (s0 := hal (HAL_FDCAN_GetRxMessage FDCAN_RX_FIFO0 HAL_OK) s).
      destruct (store_frame_spec (rx_frame m) s0 W)
        as (s1 & E1 & W1 & _ & _ & H1 & _).
      destruct (IH rest s1 W1 Fits) as (s' & R & W' & S' & H').
      exists s'. rewrite E1. cbn [bind skipn]. split; [exact R|].
      split; [exact W'|]. split.
      * cbn [firstn map store_frames].
        change (forget_calls s) with (set_hal_calls [] s0).
        rewrite (store_frame_calls _ _ _ [] E1). cbn [bind]. exact S'.
      * rewrite H', H1. unfold s0, hal, read_calls.
        cbn [hal_calls set_hal_calls length Nat.min Nat.ltb Nat.leb repeat].
        rewrite <- app_assoc. reflexivity.
Qed.

(** A message whose length does not fit makes the copy leave the array. *)
Lemma RxFifo0Callback_loop_overrun (n : nat) :
  forall (hfdcan : list RxMessage) (s : state),
    ring_wf s ->
    ~ Forall length_fits (firstn n hfdcan) ->
    RxFifo0Callback_loop n hfdcan s = OutOfBounds.
Proof.
  induction n as [|n IH]; intros hfdcan s W Bad.
  - exfalso. apply Bad. constructor.
  - destruct hfdcan as [|m rest].
    + exfalso. apply Bad. constructor.
    + rewrite RxFifo0Callback_loop_step.
      destruct (Z.leb_spec (RxDataLength (rxHeader m)) 8) as [Le|Gt]; [|reflexivity].
      set (s0 := hal (HAL_FDCAN_GetRxMessage FDCAN_RX_FIFO0 HAL_OK) s).
      destruct (store_frame_spec (rx_frame m) s0 W) as (s1 & E1 & W1 & _).
      rewrite E1. cbn [bind]. apply IH; [exact W1|].
      intros F. apply Bad. cbn [firstn]. constructor; assumption.
Qed.

Lemma length_fits_dec (l : list RxMessage) :
  {Forall length_fits l} + {~ Forall length_fits l}.
Proof.
  apply Forall_dec. intros m. unfold length_fits.
  destruct (Z_le_gt_dec (RxDataLength (rxHeader m)) 8); [left|right]; lia.
Qed.

(** ** Frame report: formatting *)

Lemma strip_zeros_length (ds : list Z) :
  (length (strip_zeros ds) <= length ds)%nat.
Proof.
  induction ds as [|d ds IH]; [reflexivity|].
  destruct d; try reflexivity.
  destruct ds as [|d' ds']; [reflexivity|].
  change (strip_zeros (0 :: d' :: ds')) with (strip_zeros (d' :: ds')).
  cbn [length] in *. lia.
Qed.

Lemma digits_length (base : Z) (count : nat) (n : Z) :
  length (digits base count n) = count.
Proof. unfold digits. now rewrite length_map, length_rev, length_seq. Qed.

Lemma conv_hex_length (upper : bool) (a : Z) : (length (conv_hex upper a) <= 8)%nat.
Proof.
  unfold conv_hex. rewrite length_map.
  etransitivity; [apply strip_zeros_length|]. now rewrite digits_length.
Qed.

Lemma conv_dec_length (a : Z) : (length (conv_dec a) <= 10)%nat.
Proof.
  unfold conv_dec. rewrite length_map.
  etransitivity; [apply strip_zeros_length|]. now rewrite digits_length.
Qed.

Lemma pad_length (zero : bool) (width : nat) (sign body : text) :
  length (pad zero width sign body) = Nat.max width (length sign + length body).
Proof.
  unfold pad. destruct zero; rewrite !length_app, repeat_length; lia.
Qed.

Lemma vsnprintf_fits (fmt : string) (args : list Z) :
  (length (format Literal fmt args) <= 127)%nat ->
  vsnprintf 128 fmt args = format Literal fmt args.
Proof. intros L. unfold vsnprintf. apply firstn_all2. exact L. Qed.

(** The head line and the byte field always fit the buffer of
    [my_printf]. *)
Lemma vsnprintf_frame_head (id dlc : Z) :
  vsnprintf 128 "ID: 0x%03X, DLC: %d, Data:" [id; dlc]
  = format Literal "ID: 0x%03X, DLC: %d, Data:" [id; dlc].
Proof.
  apply vsnprintf_fits.
  change (format Literal "ID: 0x%03X, DLC: %d, Data:" [id; dlc])
    with (lit "ID: 0x" ++ pad true 3 [] (conv_hex true id)
          ++ lit ", DLC: "
          ++ pad false 0 (if as_int dlc <? 0 then lit "-" else [])
               (conv_dec (Z.abs (as_int dlc)))
          ++ lit ", Data:").
  rewrite !length_app, !pad_length.
  pose proof (conv_hex_length true id). pose proof (conv_dec_length (Z.abs (as_int dlc))).
  destruct (as_int dlc <? 0); cbn [length lit list_ascii_of_string]; lia.
Qed.

Lemma vsnprintf_byte (b : Z) : vsnprintf 128 " %02X" [b] = byte_text b.
Proof.
  apply vsnprintf_fits.
  change (format Literal " %02X" [b])
    with (lit " " ++ pad true 2 [] (conv_hex true b) ++ []).
  rewrite !length_app, !pad_length.
  pose proof (conv_hex_length true b). cbn [length lit list_ascii_of_string]. lia.
Qed.

Lemma DEBUG_printf_overflow (message : string) (s : state) :
  uart_tx (DEBUG_printf (message ++ crlf EmptyString) [] s)
  = uart_tx s ++ [LF; LF; LF] ++ lit "$$$$$$$$$ DEBUG print START $$$$$$$$$" ++ [CR; LF]
    ++ vsnprintf 128 (message ++ crlf EmptyString) []
    ++ lit "$$$$$$$$$ DEBUG print END $$$$$$$$$$$" ++ [CR; LF; LF; LF].
Proof.
  unfold DEBUG_printf, my_printf, my_uart_transmit_buffer.
  cbn [uart_tx set_uart_tx]. rewrite <- !app_assoc. reflexivity.
Qed.

Lemma hardware_notice_text (s : state) :
  uart_tx (DEBUG_printf ("Hardware CAN FIFO overflow!" ++ crlf EmptyString) [] s)
  = uart_tx s ++ hardware_notice.
Proof. rewrite DEBUG_printf_overflow. reflexivity. Qed.

Lemma software_notice_text (s : state) :
  uart_tx (DEBUG_printf ("Software CAN buffer overflow!" ++ crlf EmptyString) [] s)
  = uart_tx s ++ software_notice.
Proof. rewrite DEBUG_printf_overflow. reflexivity. Qed.

(** ** Frame report: the drain loop *)

Lemma set_uart_tx_same (s : state) : set_uart_tx (uart_tx s) s = s.
Proof. destruct s. reflexivity. Qed.

(** The byte loop inside the array. *)
Lemma print_Data_in_bounds (f : my_CAN_Frame) (n : nat) :
  forall (i : nat) (s : state),
    (i + n <= length (Data f))%nat ->
    print_Data n (Z.of_nat i) f s
    = Ok (set_uart_tx
            (uart_tx s ++ concat (map byte_text (firstn n (skipn i (Data f))))) s).
Proof.
  induction n as [|n IH]; intros i s L.
  - cbn [print_Data firstn map concat]. rewrite app_nil_r, set_uart_tx_same.
    reflexivity.
  - destruct (lookup_lt_is_Some_2 (Data f) i) as (b & Hb); [lia|].
    cbn [print_Data]. unfold array_get.
    replace (0 <=? Z.of_nat i) with true by (symmetry; apply Z.leb_le; lia).
    rewrite Nat2Z.id, Hb. cbn [bind].
    replace (Z.of_nat i + 1) with (Z.of_nat (S i)) by lia.
    rewrite IH by lia.
    rewrite (drop_S _ _ _ Hb). cbn [firstn map concat].
    unfold my_printf, my_uart_transmit_buffer. rewrite vsnprintf_byte.
    unfold set_uart_tx. cbn. rewrite <- app_assoc. reflexivity.
Qed.

(** The byte loop running past the end of the array. *)
Lemma print_Data_overrun (f : my_CAN_Frame) (n : nat) :
  forall (i : nat) (s : state),
    (i <= length (Data f))%nat ->
    (length (Data f) < i + n)%nat ->
    print_Data n (Z.of_nat i) f s = OutOfBounds.
Proof.
  induction n as [|n IH]; intros i s Li Ln; [lia|].
  cbn [print_Data]. unfold array_get.
  replace (0 <=? Z.of_nat i) with true by (symmetry; apply Z.leb_le; lia).
  rewrite Nat2Z.id.
  destruct (Data f !! i) as [b|] eqn:Hb; [|reflexivity].
  cbn [bind]. apply lookup_lt_Some in Hb.
  replace (Z.of_nat i + 1) with (Z.of_nat (S i)) by lia.
  apply IH; lia.
Qed.

(** What the loop body sends for one frame. *)
Lemma report_frame_text (f : my_CAN_Frame) (s : state) :
  data_array f -> payload_fits f ->
  print_Data (Z.to_nat (DataLength f)) 0 f
    (my_printf "ID: 0x%03X, DLC: %d, Data:" [Identifier f; DataLength f] s)
  = Ok (set_uart_tx
          (uart_tx s
           ++ format Literal "ID: 0x%03X, DLC: %d, Data:" [Identifier f; DataLength f]
           ++ concat (map byte_text (firstn (Z.to_nat (DataLength f)) (Data f)))) s).
Proof.
  unfold data_array, payload_fits. intros A F.
  change 0 with (Z.of_nat 0). rewrite print_Data_in_bounds by lia.
  unfold my_printf, my_uart_transmit_buffer. rewrite vsnprintf_frame_head.
  unfold set_uart_tx. cbn [uart_tx skipn software_CAN_buffer_overflow
    hardware_CAN_buffer_overflow head tail CAN_ring_buffer can_status
    sFilterConfig hfdcan1_Init hal_calls].
  rewrite <- app_assoc. reflexivity.
Qed.

Lemma report_frame_overrun (f : my_CAN_Frame) (s : state) :
  data_array f -> ~ payload_fits f ->
  print_Data (Z.to_nat (DataLength f)) 0 f s = OutOfBounds.
Proof.
  unfold data_array, payload_fits. intros A F.
  change 0 with (Z.of_nat 0). apply print_Data_overrun; lia.
Qed.

(** The drain loop on a ring whose frames fit: every unread frame is
    reported, oldest first, and the ring is left empty. *)
Lemma send_frame_over_UART_loop_fits (n : nat) :
  forall (fuel : nat) (s : state),
    ring_wf s ->
    occupancy s = n ->
    (n < fuel)%nat ->
    Forall data_array (unread s) ->
    Forall payload_fits (unread s) ->
    send_frame_over_UART_loop fuel s
    = Ok (set_uart_tx (uart_tx s ++ concat (map frame_line (unread s)))
            (set_tail (head s) s)).
Proof.
  induction n as [|n IH]; intros fuel s W O Lt A F;
    (destruct fuel as [|fuel]; [lia|]); cbn [send_frame_over_UART_loop].
  - assert (E : head s = tail s).
    { destruct W as (Hh & Ht & _). unfold occupancy in O. ring_arith. }
    rewrite (read_frame_empty s E), (unread_empty s E). cbn [bind map concat].
    rewrite app_nil_r, E. destruct s. reflexivity.
  - assert (N : head s <> tail s).
    { intros E. unfold occupancy in O. rewrite E, Z.sub_diag in O. discriminate. }
    destruct (read_frame_nonempty s W N) as (f & s1 & R & Es1 & W1 & U).
    rewrite R. cbn [bind]. rewrite U in A, F.
    apply Forall_cons_1 in A as (Af & A). apply Forall_cons_1 in F as (Ff & F).
    rewrite (report_frame_text f s1 Af Ff). cbn [bind].
    rewrite IH.
    + rewrite U. subst s1. unfold frame_line, my_printf, my_uart_transmit_buffer.
      unfold set_uart_tx, set_tail.
      cbn [uart_tx software_CAN_buffer_overflow hardware_CAN_buffer_overflow
             head tail CAN_ring_buffer can_status sFilterConfig hfdcan1_Init
             hal_calls map concat].
      f_equal. f_equal.
      * rewrite <- !app_assoc. reflexivity.
    + exact W1.
    + change (occupancy s1 = n). rewrite <- length_unread in *.
      rewrite U in O. cbn [length] in O. lia.
    + lia.
    + exact A.
    + exact F.
Qed.

(** The drain loop meeting a frame whose data length exceeds the array. *)
Lemma send_frame_over_UART_loop_overrun (n : nat) :
  forall (fuel : nat) (s : state),
    ring_wf s ->
    occupancy s = n ->
    (n < fuel)%nat ->
    Forall data_array (unread s) ->
    ~ Forall payload_fits (unread s) ->
    send_frame_over_UART_loop fuel s = OutOfBounds.
Proof.
  induction n as [|n IH]; intros fuel s W O Lt A Bad.
  - exfalso. apply Bad. rewrite <- length_unread in O.
    destruct (unread s); [constructor|discriminate].
  - destruct fuel as [|fuel]; [lia|]. cbn [send_frame_over_UART_loop].
    assert (N : head s <> tail s).
    { intros E. unfold occupancy in O. rewrite E, Z.sub_diag in O. discriminate. }
    destruct (read_frame_nonempty s W N) as (f & s1 & R & Es1 & W1 & U).
    rewrite R. cbn [bind]. rewrite U in A, Bad.
    apply Forall_cons_1 in A as (Af & A).
    destruct (Z_le_gt_dec (DataLength f) 8) as [Ff|Gt].
    + rewrite (report_frame_text f s1 Af Ff). cbn [bind].
      apply IH; try assumption.
      * change (occupancy s1 = n). rewrite <- length_unread in *.
        rewrite U in O. cbn [length] in O. lia.
      * lia.
      * intros F. apply Bad. constructor; assumption.
    + rewrite report_frame_overrun; [reflexivity|exact Af|].
      unfold payload_fits. lia.
Qed.

Lemma hardware_notice_state (s : state) :
  DEBUG_printf ("Hardware CAN FIFO overflow!" ++ crlf EmptyString) [] s
  = set_uart_tx (uart_tx s ++ hardware_notice) s.
Proof.
  rewrite <- hardware_notice_text. destruct s. reflexivity.
Qed.

Lemma software_notice_state (s : state) :
  DEBUG_printf ("Software CAN buffer overflow!" ++ crlf EmptyString) [] s
  = set_uart_tx (uart_tx s ++ software_notice) s.
Proof.
  rewrite <- software_notice_text. destruct s. reflexivity.
Qed.

(** The state in which [send_frame_over_UART] enters its loop. *)
Lemma send_frame_over_UART_notices (fuel : nat) (s : state) :
  send_frame_over_UART fuel s
  = send_frame_over_UART_loop fuel
      (set_uart_tx
         (uart_tx s
          ++ (if hardware_CAN_buffer_overflow s then hardware_notice else [])
          ++ (if software_CAN_buffer_overflow s then software_notice else []))
         (set_software_CAN_buffer_overflow false
            (set_hardware_CAN_buffer_overflow false s))).
Proof.
  unfold send_frame_over_UART.
  destruct (hardware_CAN_buffer_overflow s) eqn:Hw.
  - rewrite hardware_notice_state.
    cbn [software_CAN_buffer_overflow set_uart_tx set_hardware_CAN_buffer_overflow].
    destruct (software_CAN_buffer_overflow s) eqn:Sw.
    + rewrite software_notice_state. f_equal.
      unfold set_uart_tx, set_software_CAN_buffer_overflow,
        set_hardware_CAN_buffer_overflow. cbn. rewrite <- app_assoc. reflexivity.
    + f_equal. destruct s. cbn in *. subst. rewrite ?app_nil_r. reflexivity.
  - destruct (software_CAN_buffer_overflow s) eqn:Sw.
    + rewrite software_notice_state. f_equal.
      destruct s. cbn in *. subst. reflexivity.
    + f_equal. destruct s. cbn in *. subst. rewrite ?app_nil_r. reflexivity.
Qed.

(** C5.  A report first sends one notice for each overflow flag that is
    set, the hardware one before the software one, and clears both flags;
    only then come the buffered frames, oldest first, each as the head
    line [ID: 0x%03X, DLC: %d, Data:], one [ %02X] per payload byte, a
    line end and an empty line.  The ring is empty afterwards.  The loop
    tests its condition once more than there are unread frames, so the
    call returns for every ring, and on an empty one after a single
    test. *)
Theorem report_drains_ring (s : state) :
  ring_wf s ->
  Forall data_array (unread s) ->
  Forall payload_fits (unread s) ->
  exists s' : state,
    (forall fuel : nat, (occupancy s < fuel)%nat -> send_frame_over_UART fuel s = Ok s')
    /\ send_frame_over_UART 256 s = Ok s'
    /\ (head s = tail s -> send_frame_over_UART 1 s = Ok s')
    /\ uart_tx s'
       = uart_tx s
         ++ (if hardware_CAN_buffer_overflow s then hardware_notice else [])
         ++ (if software_CAN_buffer_overflow s then software_notice else [])
         ++ concat (map frame_line (unread s))
    /\ hardware_CAN_buffer_overflow s' = false
    /\ software_CAN_buffer_overflow s' = false
    /\ head s' = tail s'
    /\ unread s' = [].
Proof.
  intros W A F.
  set (s0 := set_uart_tx
         (uart_tx s
          ++ (if hardware_CAN_buffer_overflow s then hardware_notice else [])
          ++ (if software_CAN_buffer_overflow s then software_notice else []))
         (set_software_CAN_buffer_overflow false
            (set_hardware_CAN_buffer_overflow false s))).
  exists (set_uart_tx (uart_tx s0 ++ concat (map frame_line (unread s0)))
            (set_tail (head s0) s0)).
  assert (Run : forall fuel : nat,
             (occupancy s < fuel)%nat ->
             send_frame_over_UART fuel s
             = Ok (set_uart_tx (uart_tx s0 ++ concat (map frame_line (unread s0)))
                     (set_tail (head s0) s0))).
  { intros fuel Lt. rewrite send_frame_over_UART_notices. fold s0.
    apply (send_frame_over_UART_loop_fits (occupancy s)); auto. }
  split; [exact Run|].
  split; [apply Run; apply occupancy_bound|].
  split.
  { intros E. apply Run. rewrite <- length_unread, (unread_empty s E). cbn. lia. }
  split.
  { unfold s0. cbn [uart_tx set_uart_tx]. rewrite <- !app_assoc. reflexivity. }
  repeat split. apply unread_empty. reflexivity.
Qed.

(** The report of the frame [{0x123, 3, AA BB CC}]. *)
Example frame_line_0x123 :
  frame_line {| Identifier := 291; DataLength := 3;
                Data := [170; 187; 204; 0; 0; 0; 0; 0] |}
  = lit "ID: 0x123, DLC: 3, Data: AA BB CC" ++ [CR; LF; LF].
Proof. reflexivity. Qed.

(** ** Interrupt flags and the callback as a whole *)

Lemma read_calls_successful (n d : nat) :
  length (List.filter is_successful_read (read_calls n d)) = Nat.min d n.
Proof.
  unfold read_calls. rewrite List.filter_app, length_app.
  assert (R : forall k,
             List.filter is_successful_read
               (repeat (HAL_FDCAN_GetRxMessage FDCAN_RX_FIFO0 HAL_OK) k)
             = repeat (HAL_FDCAN_GetRxMessage FDCAN_RX_FIFO0 HAL_OK) k).
  { induction k as [|k IH]; [reflexivity|]. cbn. now rewrite IH. }
  rewrite R, repeat_length. destruct (d <? n)%nat; cbn; lia.
Qed.

Lemma read_calls_length (n d : nat) : (length (read_calls n d) <= n)%nat.
Proof.
  unfold read_calls. rewrite length_app, repeat_length.
  destruct (Nat.ltb_spec d n); cbn; lia.
Qed.

(** Frames assembled from messages that report between 0 and 8 bytes
    are the frames the report path expects. *)
Lemma rx_frame_data_array (m : RxMessage) :
  length_fits m -> data_array (rx_frame m).
Proof.
  unfold length_fits, data_array, rx_frame. cbn [Data]. intros L.
  rewrite length_app, length_skipn, !length_firstn, length_app, length_skipn,
    !repeat_length.
  lia.
Qed.

Lemma rx_frame_payload_fits (m : RxMessage) :
  0 <= RxDataLength (rxHeader m) <= 8 -> payload_fits (rx_frame m).
Proof.
  unfold payload_fits, rx_frame. cbn [DataLength]. intros L. ring_arith.
Qed.

Lemma store_frames_Forall (P : my_CAN_Frame -> Prop) (fs : list my_CAN_Frame) :
  forall s s' : state,
    ring_wf s ->
    Forall P fs ->
    Forall P (unread s) ->
    store_frames fs s = Ok s' ->
    ring_wf s' /\ Forall P (unread s').
Proof.
  induction fs as [|f fs IH]; intros s s' W Pf Pu E.
  - injection E as <-. auto.
  - apply Forall_cons_1 in Pf as (Pf & Pfs). cbn [store_frames] in E.
    destruct (store_frame_spec f s W)
      as (s1 & E1 & W1 & _ & _ & _ & _ & [(_ & U1 & _)|(_ & U1 & _)]);
      rewrite E1 in E; cbn [bind] in E;
      apply (IH s1 s' W1 Pfs); try exact E; rewrite U1; [|exact Pu].
    apply Forall_app. split; [exact Pu|]. constructor; [exact Pf|constructor].
Qed.

Section ReceiveCallback.

Variable interrupt_mask : FDCAN_interrupt -> Z.

(** C9.  One invocation of the callback takes [min d 32] messages from a
    hardware queue of depth [d]: it reads successfully that many times,
    stops at the first read that reports the queue empty, and calls
    [HAL_FDCAN_GetRxMessage] at most 32 times whatever [d] is. *)
Theorem callback_reads_at_most_32
  (hfdcan : list RxMessage) (RxFifo0ITs : Z) (s : state) :
  ring_wf s ->
  Forall length_fits (firstn 32 hfdcan) ->
  exists (s' : state) (reads : list hal_call),
    HAL_FDCAN_RxFifo0Callback interrupt_mask hfdcan RxFifo0ITs s
    = Ok (skipn 32 hfdcan, s')
    /\ hal_calls s'
       = hal_calls s
         ++ (if Z.land RxFifo0ITs (interrupt_mask FDCAN_IT_RX_FIFO0_MESSAGE_LOST) =? 0
             then []
             else [HAL_FDCAN_CLEAR_FLAG FDCAN_FLAG_RX_FIFO0_MESSAGE_LOST])
         ++ reads
    /\ reads = read_calls 32 (length hfdcan)
    /\ length (List.filter is_successful_read reads) = Nat.min (length hfdcan) 32
    /\ (length reads <= 32)%nat
    /\ length (skipn 32 hfdcan) = (length hfdcan - Nat.min (length hfdcan) 32)%nat.
Proof.
  intros W Fits. unfold HAL_FDCAN_RxFifo0Callback.
  destruct (Z.land RxFifo0ITs (interrupt_mask FDCAN_IT_RX_FIFO0_MESSAGE_LOST) =? 0);
    cbn [negb].
  - destruct (RxFifo0Callback_loop_fits 32 hfdcan s W Fits) as (s' & R & _ & _ & H).
    exists s', (read_calls 32 (length hfdcan)).
    split; [exact R|]. split; [exact H|]. split; [reflexivity|].
    split; [apply read_calls_successful|]. split; [apply read_calls_length|].
    rewrite length_skipn. lia.
  - destruct (RxFifo0Callback_loop_fits 32 hfdcan
                (hal (HAL_FDCAN_CLEAR_FLAG FDCAN_FLAG_RX_FIFO0_MESSAGE_LOST)
                   (set_hardware_CAN_buffer_overflow true s)) W Fits)
      as (s' & R & _ & _ & H).
    exists s', (read_calls 32 (length hfdcan)).
    split; [exact R|]. split.
    { rewrite H. unfold hal. cbn [hal_calls set_hal_calls set_hardware_CAN_buffer_overflow].
      rewrite <- app_assoc. reflexivity. }
    split; [reflexivity|].
    split; [apply read_calls_successful|]. split; [apply read_calls_length|].
    rewrite length_skipn. lia.
Qed.

(** C10.  Neither path checks the data length.  The callback copies the
    reported number of bytes into the 8-byte array: it stays inside it
    exactly when every message it reads reports at most 8.  The report
    indexes the array up to the stored length: it stays inside it exactly
    when every unread frame holds a length of at most 8.  Otherwise the
    access leaves the array. *)
Theorem payload_bounds_rest_on_reported_length
  (hfdcan : list RxMessage) (RxFifo0ITs : Z) (s : state) (fuel : nat) (r : state) :
  ring_wf s ->
  ring_wf r ->
  (occupancy r < fuel)%nat ->
  Forall data_array (unread r) ->
  ((exists out, HAL_FDCAN_RxFifo0Callback interrupt_mask hfdcan RxFifo0ITs s = Ok out)
   <-> Forall length_fits (firstn 32 hfdcan))
  /\ (~ Forall length_fits (firstn 32 hfdcan) ->
      HAL_FDCAN_RxFifo0Callback interrupt_mask hfdcan RxFifo0ITs s = OutOfBounds)
  /\ ((exists out, send_frame_over_UART fuel r = Ok out)
      <-> Forall payload_fits (unread r))
  /\ (~ Forall payload_fits (unread r) ->
      send_frame_over_UART fuel r = OutOfBounds).
Proof.
  intros Ws Wr Lt A.
  assert (In_bad : ~ Forall length_fits (firstn 32 hfdcan) ->
                   HAL_FDCAN_RxFifo0Callback interrupt_mask hfdcan RxFifo0ITs s
                   = OutOfBounds).
  { intros Bad. unfold HAL_FDCAN_RxFifo0Callback.
    destruct (negb _); apply RxFifo0Callback_loop_overrun; assumption. }
  assert (Out_bad : ~ Forall payload_fits (unread r) ->
                    send_frame_over_UART fuel r = OutOfBounds).
  { intros Bad. rewrite send_frame_over_UART_notices.
    apply (send_frame_over_UART_loop_overrun (occupancy r)); auto. }
  split; [|split; [exact In_bad|split; [|exact Out_bad]]].
  - split.
    + intros (out & E). destruct (length_fits_dec (firstn 32 hfdcan)) as [F|Bad];
        [exact F|]. rewrite (In_bad Bad) in E. discriminate.
    + intros F. unfold HAL_FDCAN_RxFifo0Callback.
      destruct (negb _);
        edestruct (RxFifo0Callback_loop_fits 32 hfdcan) as (s' & E & _);
        try exact F; try (eexists; exact E); exact Ws.
  - split.
    + intros (out & E).
      assert (D : {Forall payload_fits (unread r)} + {~ Forall payload_fits (unread r)}).
      { apply Forall_dec. intros f. unfold payload_fits.
        destruct (Z_le_gt_dec (DataLength f) 8); [left|right]; lia. }
      destruct D as [F|Bad]; [exact F|]. rewrite (Out_bad Bad) in E. discriminate.
    + intros F. rewrite send_frame_over_UART_notices. eexists.
      apply (send_frame_over_UART_loop_fits (occupancy r)); auto.
Qed.

(** X17.  The callback keeps the ring well formed, and its frames within
    the data model when the controller reports lengths between 0 and 8:
    after it, the indices are inside the array and every unread frame
    has a data length of at most 8 in an 8-byte array, which is what the
    report needs to stay inside the payload arrays. *)
Lemma callback_keeps_frames_in_model
  (hfdcan rest : list RxMessage) (RxFifo0ITs : Z) (s s' : state) :
  ring_wf s ->
  Forall (fun m => 0 <= RxDataLength (rxHeader m) <= 8) (firstn 32 hfdcan) ->
  Forall data_array (unread s) ->
  Forall payload_fits (unread s) ->
  HAL_FDCAN_RxFifo0Callback interrupt_mask hfdcan RxFifo0ITs s = Ok (rest, s') ->
  ring_wf s' /\ Forall data_array (unread s') /\ Forall payload_fits (unread s').
Proof.
  intros W L A F E. unfold HAL_FDCAN_RxFifo0Callback in E.
  set (s0 := if negb (Z.land RxFifo0ITs
                        (interrupt_mask FDCAN_IT_RX_FIFO0_MESSAGE_LOST) =? 0)
             then hal (HAL_FDCAN_CLEAR_FLAG FDCAN_FLAG_RX_FIFO0_MESSAGE_LOST)
                    (set_hardware_CAN_buffer_overflow true s)
             else s) in E.
  assert (W0 : ring_wf s0) by (unfold s0; destruct (negb _); exact W).
  assert (U0 : unread s0 = unread s) by (unfold s0; destruct (negb _); reflexivity).
  assert (Fits : Forall length_fits (firstn 32 hfdcan)).
  { eapply Forall_impl; [exact L|]. unfold length_fits. cbn. intros m Hm. lia. }
  destruct (RxFifo0Callback_loop_fits 32 hfdcan s0 W0 Fits) as (s1 & R & _ & S & _).
  rewrite R in E. injection E as _ <-.
  assert (Wf : ring_wf (forget_calls s0)) by exact W0.
  destruct (store_frames_Forall data_array _ _ _ Wf
              ltac:(apply List.Forall_map; eapply Forall_impl; [exact Fits|];
                    intros m Hm; apply rx_frame_data_array; exact Hm)
              ltac:(change (unread (forget_calls s0)) with (unread s0);
                    rewrite U0; exact A) S) as (W1 & A1).
  destruct (store_frames_Forall payload_fits _ _ _ Wf
              ltac:(apply List.Forall_map; eapply Forall_impl; [exact L|];
                    intros m Hm; apply rx_frame_payload_fits; exact Hm)
              ltac:(change (unread (forget_calls s0)) with (unread s0);
                    rewrite U0; exact F) S) as (_ & F1).
  split; [exact W1|]. split; [exact A1|exact F1].
Qed.

End ReceiveCallback.

(** ** Concrete instances *)

Lemma manual_configuration_status_witness :
  let s := initial_state sample_timing in
  In 500000 (map timing_baudrate can_timings)
  /\ ~ In 123 (map timing_baudrate can_timings)
  /\ fst (my_CAN_manual_configuration 500000 s)
     = {| is_set := true; baudrate := 500000; filter_id := 0; mask_id := 0 |}
  /\ fst (my_CAN_manual_configuration 123 s)
     = {| is_set := false; baudrate := 0; filter_id := 0; mask_id := 0 |}.
Proof.
  intros s.
  assert (Hit : In 500000 (map timing_baudrate can_timings)).
  { cbn. do 9 right. left. reflexivity. }
  assert (Miss : ~ In 123 (map timing_baudrate can_timings)).
  { cbn. intros C. repeat (destruct C as [C|C]; [discriminate C|]). exact C. }
  split; [exact Hit|]. split; [exact Miss|]. split.
  - exact (proj1 (manual_configuration_status 500000 s) Hit).
  - exact (proj1 (proj2 (manual_configuration_status 123 s)) Miss).
Defined.

Lemma start_only_when_configured_witness :
  let s := initial_state sample_timing in
  let c := snd (my_CAN_manual_configuration 500000 s) in
  is_set (can_status s) = false
  /\ my_CAN_start s = (false, s)
  /\ is_set (can_status c) = true
  /\ exists (c' : state) (calls : list hal_call),
      my_CAN_start c = (true, c')
      /\ hal_calls c' = hal_calls c ++ calls
      /\ length (List.filter is_start calls) = 1%nat
      /\ length (List.filter is_notification_enable calls) = 1%nat.
Proof.
  intros s c.
  assert (U : is_set (can_status s) = false) by reflexivity.
  assert (C : is_set (can_status c) = true) by reflexivity.
  split; [exact U|]. split; [exact (proj1 (start_only_when_configured s) U)|].
  split; [exact C|].
  destruct (proj2 (start_only_when_configured c) C)
    as (c' & calls & E & H & _ & N1 & N2 & _).
  exists c', calls. auto.
Defined.

Lemma auto_configuration_sweep_witness :
  let s := initial_state sample_timing in
  let e := {| timing_baudrate := 500000; prescaler := 2; timeSeg1 := 34; timeSeg2 := 5 |} in
  (forall e', In e' can_timings -> silent_bus (timing_of e') = 0)
  /\ (exists s',
         my_CAN_auto_configuration silent_bus false s
         = ({| is_set := false; baudrate := 0; filter_id := 0; mask_id := 0 |}, s')
         /\ hal_calls s' = concat (map probe_calls can_timings))
  /\ can_timings !! 9%nat = Some e
  /\ 0 < bus_at_500k (timing_of e)
  /\ (forall e', In e' (firstn 9 can_timings) -> bus_at_500k (timing_of e') = 0)
  /\ (exists s',
         my_CAN_auto_configuration bus_at_500k true s
         = ({| is_set := true; baudrate := 500000; filter_id := 0; mask_id := 0 |}, s')
         /\ hal_calls s' = concat (map probe_calls (firstn 10 can_timings))).
Proof.
  intros s e.
  assert (Silent : forall e', In e' can_timings -> silent_bus (timing_of e') = 0)
    by reflexivity.
  assert (At : can_timings !! 9%nat = Some e) by reflexivity.
  assert (Traffic : 0 < bus_at_500k (timing_of e)) by reflexivity.
  assert (Before : forall e', In e' (firstn 9 can_timings) ->
                              bus_at_500k (timing_of e') = 0).
  { intros e' I. cbn in I.
    repeat (destruct I as [<-|I]; [reflexivity|]). destruct I. }
  split; [exact Silent|]. split.
  { destruct (proj1 (auto_configuration_sweep silent_bus false s) Silent)
      as (s' & R & _ & H).
    exists s'. split; [exact R|exact H]. }
  split; [exact At|]. split; [exact Traffic|]. split; [exact Before|].
  destruct (proj2 (auto_configuration_sweep bus_at_500k true s) 9%nat e At Traffic Before)
    as (s' & R & _ & H).
  exists s'. split; [exact R|exact H].
Defined.

Lemma report_drains_ring_witness :
  let s := set_hardware_CAN_buffer_overflow true (ring_with frame_0x123) in
  ring_wf s /\ Forall data_array (unread s) /\ Forall payload_fits (unread s)
  /\ exists s' : state,
      send_frame_over_UART 256 s = Ok s'
      /\ uart_tx s'
         = hardware_notice
           ++ lit "ID: 0x123, DLC: 3, Data: AA BB CC" ++ [CR; LF; LF]
      /\ hardware_CAN_buffer_overflow s' = false
      /\ unread s' = [].
Proof.
  intros s.
  assert (W : ring_wf s) by (repeat split; cbn; try lia; reflexivity).
  assert (A : Forall data_array (unread s)).
  { change (unread s) with [frame_0x123]. repeat constructor. }
  assert (F : Forall payload_fits (unread s)).
  { change (unread s) with [frame_0x123].
    constructor; [unfold payload_fits; cbn; lia|constructor]. }
  split; [exact W|]. split; [exact A|]. split; [exact F|].
  destruct (report_drains_ring s W A F) as (s' & _ & R & _ & U & H & _ & _ & E).
  exists s'. split; [exact R|]. split; [rewrite U; reflexivity|].
  split; [exact H|exact E].
Defined.

Lemma callback_reads_at_most_32_witness :
  let s := initial_state sample_timing in
  let burst := map (fun k => sample_message k 8) (seq 0 40) in
  let trickle := map (fun k => sample_message k 2) (seq 0 5) in
  ring_wf s
  /\ Forall length_fits (firstn 32 burst)
  /\ Forall length_fits (firstn 32 trickle)
  /\ (exists (s' : state) (reads : list hal_call),
         HAL_FDCAN_RxFifo0Callback sample_interrupt_mask burst 1 s
         = Ok (skipn 32 burst, s')
         /\ hal_calls s' = reads
         /\ length (List.filter is_successful_read reads) = 32%nat
         /\ length reads = 32%nat)
  /\ (exists (s' : state) (reads : list hal_call),
         HAL_FDCAN_RxFifo0Callback sample_interrupt_mask trickle 1 s = Ok ([], s')
         /\ hal_calls s' = reads
         /\ length (List.filter is_successful_read reads) = 5%nat
         /\ length reads = 6%nat).
Proof.
  intros s burst trickle.
  assert (W : ring_wf s) by (repeat split; cbn; try lia; reflexivity).
  assert (B : Forall length_fits (firstn 32 burst)).
  { apply Forall_forall. intros m I. apply list_elem_of_In in I. cbn in I.
    repeat (destruct I as [<-|I]; [unfold length_fits; cbn; lia|]). destruct I. }
  assert (T : Forall length_fits (firstn 32 trickle)).
  { apply Forall_forall. intros m I. apply list_elem_of_In in I. cbn in I.
    repeat (destruct I as [<-|I]; [unfold length_fits; cbn; lia|]). destruct I. }
  split; [exact W|]. split; [exact B|]. split; [exact T|]. split.
  - destruct (callback_reads_at_most_32 sample_interrupt_mask burst 1 s W B)
      as (s' & reads & R & H & Er & N & _).
    exists s', reads. split; [exact R|]. split; [exact H|]. split; [exact N|].
    rewrite Er. reflexivity.
  - destruct (callback_reads_at_most_32 sample_interrupt_mask trickle 1 s W T)
      as (s' & reads & R & H & Er & N & _).
    exists s', reads. split; [exact R|]. split; [exact H|]. split; [exact N|].
    rewrite Er. reflexivity.
Defined.

Lemma payload_bounds_rest_on_reported_length_witness :
  let s := initial_state sample_timing in
  let long := sample_message 7 9 in
  let r := ring_with {| Identifier := 7; DataLength := 9; Data := repeat 7 8 |} in
  ring_wf s /\ ring_wf r /\ (occupancy r < 256)%nat /\ Forall data_array (unread r)
  /\ HAL_FDCAN_RxFifo0Callback sample_interrupt_mask [long] 1 s = OutOfBounds
  /\ send_frame_over_UART 256 r = OutOfBounds.
Proof.
  intros s long r.
  assert (Ws : ring_wf s) by (repeat split; cbn; try lia; reflexivity).
  assert (Wr : ring_wf r) by (repeat split; cbn; try lia; reflexivity).
  assert (Lt : (occupancy r < 256)%nat) by (apply occupancy_bound).
  assert (A : Forall data_array (unread r)).
  { change (unread r) with [{| Identifier := 7; DataLength := 9; Data := repeat 7 8 |}].
    repeat constructor. }
  split; [exact Ws|]. split; [exact Wr|]. split; [exact Lt|]. split; [exact A|].
  destruct (payload_bounds_rest_on_reported_length
              sample_interrupt_mask [long] 1 s 256 r Ws Wr Lt A)
    as (_ & In_bad & _ & Out_bad).
  split.
  - apply In_bad. intros C. apply Forall_cons_1 in C as (C & _).
    unfold length_fits in C. cbn in C. lia.
  - apply Out_bad. intros C.
    change (unread r)
      with [{| Identifier := 7; DataLength := 9; Data := repeat 7 8 |}] in C.
    apply Forall_cons_1 in C as (C & _). unfold payload_fits in C. cbn in C. lia.
Defined.

(** ** Worked examples *)

Example format_frame_head :
  vsnprintf 128 "ID: 0x%03X, DLC: %d, Data:" [291; 3]
  = lit "ID: 0x123, DLC: 3, Data:".
Proof. reflexivity. Qed.

Example format_byte : vsnprintf 128 " %02X" [10] = lit " 0A".
Proof. reflexivity. Qed.

Example format_rate :
  vsnprintf 128 ("Trying Baud Rate: %d" ++ crlf EmptyString) [1000000]
  = lit "Trying Baud Rate: 1000000" ++ [CR; LF].
Proof. reflexivity. Qed.

Example format_signed_and_lower :
  vsnprintf 128 "%05d|%5d|%x" [-42; 4294967295; 48879] = lit "-0042|   -1|beef".
Proof. reflexivity. Qed.

(** A message reporting 3 bytes is stored with that length and those
    bytes; one reporting 9 is not clamped to 8. *)
Example callback_stores_reported_length :
  exists s' : state,
    HAL_FDCAN_RxFifo0Callback sample_interrupt_mask
      [{| rxHeader := {| RxIdentifier := 291; RxDataLength := 3 |};
          rxPayload := [170; 187; 204] |}] 1 (initial_state sample_timing)
    = Ok ([], s')
    /\ unread s' = [frame_0x123].
Proof. eexists. split; reflexivity. Qed.

(** The lost-message flag latches the hardware overflow. *)
Example callback_latches_message_lost :
  exists s' : state,
    HAL_FDCAN_RxFifo0Callback sample_interrupt_mask [] 8 (initial_state sample_timing)
    = Ok ([], s')
    /\ hardware_CAN_buffer_overflow s' = true
    /\ hal_calls s'
       = [HAL_FDCAN_CLEAR_FLAG FDCAN_FLAG_RX_FIFO0_MESSAGE_LOST;
          HAL_FDCAN_GetRxMessage FDCAN_RX_FIFO0 HAL_ERROR].
Proof. eexists. split; [reflexivity|]. split; reflexivity. Qed.

(** ** Further properties of the capture ring *)

(** A batch of any size: what fits is stored behind the unread frames,
    the rest is dropped. *)
Lemma store_frames_any (fs : list my_CAN_Frame) :
  forall s : state,
    ring_wf s ->
    exists s' : state,
      store_frames fs s = Ok s'
      /\ ring_wf s'
      /\ unread s' = unread s ++ firstn (255 - occupancy s) fs
      /\ software_CAN_buffer_overflow s'
         = software_CAN_buffer_overflow s || (255 - occupancy s <? length fs)%nat
      /\ tail s' = tail s
      /\ hardware_CAN_buffer_overflow s' = hardware_CAN_buffer_overflow s
      /\ hal_calls s' = hal_calls s
      /\ uart_tx s' = uart_tx s.
Proof.
  induction fs as [|f fs IH]; intros s W.
  - exists s. rewrite firstn_nil, app_nil_r.
    replace (255 - occupancy s <? length [])%nat with false
      by (symmetry; apply Nat.ltb_ge; cbn; lia).
    rewrite orb_false_r. auto 10.
  - destruct (store_frame_spec f s W)
      as (s1 & E1 & W1 & T1 & G1 & H1 & X1 & [(Lt & U1 & F1)|(Full & U1 & _ & F1)]);
      destruct (IH s1 W1) as (s2 & E2 & W2 & U2 & F2 & T2 & G2 & H2 & X2);
      exists s2; cbn [store_frames]; rewrite E1; cbn [bind];
      (split; [exact E2|]); (split; [exact W2|]).
    + assert (O1 : occupancy s1 = S (occupancy s)).
      { rewrite <- !length_unread, U1, length_app. cbn. lia. }
      rewrite U2, F2, U1, F1, O1, T2, G2, H2, X2, <- app_assoc.
      replace (255 - occupancy s)%nat with (S (255 - S (occupancy s))) by lia.
      cbn [firstn app length]. repeat split; try assumption; reflexivity.
    + assert (O1 : occupancy s1 = occupancy s).
      { rewrite <- !length_unread, U1. reflexivity. }
      rewrite U2, F2, U1, F1, O1, T2, G2, H2, X2, Full.
      cbn [Nat.sub firstn orb]. rewrite orb_true_r.
      repeat split; assumption.
Qed.

(** X1.  Overflow drops the newest frames and none of the stored ones.
    Of a batch stored into a ring holding [n] unread frames, the first
    [255 - n] are appended in order and the others are dropped; the
    software-overflow flag is raised exactly when a frame was dropped,
    and is never lowered. *)
Theorem overflow_drops_newest (fs : list my_CAN_Frame) (s : state) :
  ring_wf s ->
  exists s' : state,
    store_frames fs s = Ok s'
    /\ unread s' = unread s ++ firstn (255 - occupancy s) fs
    /\ software_CAN_buffer_overflow s'
       = software_CAN_buffer_overflow s || (255 - occupancy s <? length fs)%nat.
Proof.
  intros W. destruct (store_frames_any fs s W) as (s' & E & _ & U & F & _).
  exists s'. auto.
Qed.

Lemma overflow_drops_newest_witness :
  let s := initial_state sample_timing in
  let fs := map numbered_frame (seq 1 300) in
  ring_wf s
  /\ exists s' : state,
      store_frames fs s = Ok s'
      /\ unread s' = map numbered_frame (seq 1 255)
      /\ software_CAN_buffer_overflow s' = true.
Proof.
  intros s fs.
  assert (W : ring_wf s) by (repeat split; cbn; try lia; reflexivity).
  split; [exact W|].
  destruct (overflow_drops_newest fs s W) as (s' & E & U & F).
  exists s'. split; [exact E|]. split; [rewrite U|rewrite F]; reflexivity.
Defined.

(** Insertion does not touch the configuration. *)
Lemma store_frames_keeps_status (fs : list my_CAN_Frame) :
  forall s s' : state,
    store_frames fs s = Ok s' -> can_status s' = can_status s.
Proof.
  induction fs as [|f fs IH]; intros s s' E.
  - injection E as <-. reflexivity.
  - cbn [store_frames] in E. unfold store_frame at 1 in E.
    destruct (_ =? tail s) in E; cbn [bind] in E.
    + apply IH in E. exact E.
    + destruct (array_set _ _ _) in E; try discriminate E. cbn [bind] in E.
      apply IH in E. exact E.
Qed.

(** The report on a ring whose frames fit, with the state it leaves. *)
Lemma send_frame_over_UART_fits (fuel : nat) (s : state) :
  ring_wf s ->
  (occupancy s < fuel)%nat ->
  Forall data_array (unread s) ->
  Forall payload_fits (unread s) ->
  send_frame_over_UART fuel s
  = Ok (set_uart_tx
          (uart_tx s
           ++ notices (hardware_CAN_buffer_overflow s) (software_CAN_buffer_overflow s)
           ++ concat (map frame_line (unread s)))
          (set_tail (head s)
             (set_software_CAN_buffer_overflow false
                (set_hardware_CAN_buffer_overflow false s)))).
Proof.
  intros W Lt A F. rewrite send_frame_over_UART_notices.
  rewrite (send_frame_over_UART_loop_fits (occupancy s)); auto.
  unfold notices, set_uart_tx, set_tail. cbn. rewrite <- !app_assoc. reflexivity.
Qed.

(** X2.  A second report right after a report sends nothing and changes
    nothing: the flags were cleared and the ring drained by the first. *)
Theorem report_twice_is_silent (fuel : nat) (s : state) :
  ring_wf s ->
  (occupancy s < fuel)%nat ->
  Forall data_array (unread s) ->
  Forall payload_fits (unread s) ->
  exists s' : state,
    send_frame_over_UART fuel s = Ok s'
    /\ send_frame_over_UART 1 s' = Ok s'.
Proof.
  intros W Lt A F. eexists. split; [apply send_frame_over_UART_fits; assumption|].
  rewrite send_frame_over_UART_notices. cbn [send_frame_over_UART_loop].
  rewrite read_frame_empty by reflexivity. cbn [bind].
  destruct s. cbn. rewrite !app_nil_r. reflexivity.
Qed.

Lemma report_twice_is_silent_witness :
  let s := set_software_CAN_buffer_overflow true (ring_with frame_0x123) in
  ring_wf s /\ (occupancy s < 2)%nat
  /\ Forall data_array (unread s) /\ Forall payload_fits (unread s)
  /\ exists s' : state,
      send_frame_over_UART 2 s = Ok s' /\ send_frame_over_UART 1 s' = Ok s'.
Proof.
  intros s.
  assert (W : ring_wf s) by (repeat split; cbn; try lia; reflexivity).
  assert (Lt : (occupancy s < 2)%nat) by (vm_compute; lia).
  assert (A : Forall data_array (unread s)).
  { change (unread s) with [frame_0x123]. repeat constructor. }
  assert (F : Forall payload_fits (unread s)).
  { change (unread s) with [frame_0x123].
    constructor; [unfold payload_fits; cbn; lia|constructor]. }
  split; [exact W|]. split; [exact Lt|]. split; [exact A|]. split; [exact F|].
  exact (report_twice_is_silent 2 s W Lt A F).
Defined.

(** ** Further properties of the receive callback *)

Section CallbackEffect.

Variable interrupt_mask : FDCAN_interrupt -> Z.

(** Everything one invocation does to the queue, the ring and the
    flags, for messages whose length fits. *)
Lemma callback_effect (hfdcan : list RxMessage) (RxFifo0ITs : Z) (s : state) :
  ring_wf s ->
  Forall length_fits (firstn 32 hfdcan) ->
  exists s' : state,
    HAL_FDCAN_RxFifo0Callback interrupt_mask hfdcan RxFifo0ITs s
    = Ok (skipn 32 hfdcan, s')
    /\ ring_wf s'
    /\ unread s'
       = unread s ++ firstn (255 - occupancy s) (map rx_frame (firstn 32 hfdcan))
    /\ software_CAN_buffer_overflow s'
       = software_CAN_buffer_overflow s
         || (255 - occupancy s <? Nat.min 32 (length hfdcan))%nat
    /\ hardware_CAN_buffer_overflow s'
       = hardware_CAN_buffer_overflow s || message_lost interrupt_mask RxFifo0ITs
    /\ tail s' = tail s
    /\ uart_tx s' = uart_tx s
    /\ can_status s' = can_status s.
Proof.
  intros W Fits. unfold HAL_FDCAN_RxFifo0Callback. fold (message_lost interrupt_mask RxFifo0ITs).
  set (s0 := if message_lost interrupt_mask RxFifo0ITs
             then hal (HAL_FDCAN_CLEAR_FLAG FDCAN_FLAG_RX_FIFO0_MESSAGE_LOST)
                    (set_hardware_CAN_buffer_overflow true s)
             else s).
  assert (W0 : ring_wf s0) by (unfold s0; destruct (message_lost _ _); exact W).
  assert (U0 : unread s0 = unread s) by (unfold s0; destruct (message_lost _ _); reflexivity).
  assert (O0 : occupancy s0 = occupancy s)
    by (unfold s0; destruct (message_lost _ _); reflexivity).
  assert (S0 : software_CAN_buffer_overflow s0 = software_CAN_buffer_overflow s)
    by (unfold s0; destruct (message_lost _ _); reflexivity).
  assert (H0 : hardware_CAN_buffer_overflow s0
               = hardware_CAN_buffer_overflow s || message_lost interrupt_mask RxFifo0ITs).
  { unfold s0. destruct (message_lost _ _); cbn; [now rewrite orb_true_r|now rewrite orb_false_r]. }
  assert (T0 : tail s0 = tail s) by (unfold s0; destruct (message_lost _ _); reflexivity).
  assert (X0 : uart_tx s0 = uart_tx s) by (unfold s0; destruct (message_lost _ _); reflexivity).
  assert (C0 : can_status s0 = can_status s) by (unfold s0; destruct (message_lost _ _); reflexivity).
  destruct (RxFifo0Callback_loop_fits 32 hfdcan s0 W0 Fits) as (s' & R & W' & S & _).
  assert (Wf : ring_wf (forget_calls s0)) by exact W0.
  destruct (store_frames_any (map rx_frame (firstn 32 hfdcan)) (forget_calls s0) Wf)
    as (s2 & E2 & _ & U2 & F2 & T2 & G2 & _ & X2).
  rewrite S in E2. injection E2 as E2.
  exists s'. split; [exact R|]. split; [exact W'|].
  change (unread s') with (unread (forget_calls s')).
  change (software_CAN_buffer_overflow s')
    with (software_CAN_buffer_overflow (forget_calls s')).
  change (hardware_CAN_buffer_overflow s')
    with (hardware_CAN_buffer_overflow (forget_calls s')).
  change (tail s') with (tail (forget_calls s')).
  change (uart_tx s') with (uart_tx (forget_calls s')).
  rewrite E2, U2, F2, T2, G2, X2.
  change (unread (forget_calls s0)) with (unread s0).
  change (occupancy (forget_calls s0)) with (occupancy s0).
  cbn [forget_calls software_CAN_buffer_overflow hardware_CAN_buffer_overflow
         tail uart_tx set_hal_calls].
  rewrite U0, O0, S0, H0, T0, X0, length_map, length_firstn.
  repeat split.
  rewrite <- C0. exact (store_frames_keeps_status _ _ _ S).
Qed.

End CallbackEffect.

Lemma rx_frames_in_model (l : list RxMessage) (k : nat) :
  Forall message_in_model l ->
  Forall data_array (firstn k (map rx_frame l))
  /\ Forall payload_fits (firstn k (map rx_frame l)).
Proof.
  intros M. split; apply Forall_take, List.Forall_map;
    (eapply Forall_impl; [exact M|]); intros m Hm.
  - apply rx_frame_data_array. unfold length_fits. apply Hm.
  - apply rx_frame_payload_fits. exact Hm.
Qed.

Lemma in_model_fits (l : list RxMessage) :
  Forall message_in_model l -> Forall length_fits l.
Proof.
  intros M. eapply Forall_impl; [exact M|]. intros m Hm. apply Hm.
Qed.

Section CallbackProperties.

Variable interrupt_mask : FDCAN_interrupt -> Z.

(** X3.  One invocation of the callback, in full.  It takes the first 32
    messages off the hardware queue whether or not they fit the ring.
    Their frames go behind the unread ones as long as fewer than 255 are
    unread; the others are lost and raise the software-overflow flag.
    The hardware-overflow flag is raised by the message-lost bit.
    Neither flag is lowered, and the read index, the UART and the
    configuration are not touched. *)
Theorem callback_fills_ring (hfdcan : list RxMessage) (RxFifo0ITs : Z) (s : state) :
  ring_wf s ->
  Forall length_fits (firstn 32 hfdcan) ->
  exists s' : state,
    HAL_FDCAN_RxFifo0Callback interrupt_mask hfdcan RxFifo0ITs s
    = Ok (skipn 32 hfdcan, s')
    /\ unread s'
       = unread s ++ firstn (255 - occupancy s) (map rx_frame (firstn 32 hfdcan))
    /\ software_CAN_buffer_overflow s'
       = software_CAN_buffer_overflow s
         || (255 - occupancy s <? Nat.min 32 (length hfdcan))%nat
    /\ hardware_CAN_buffer_overflow s'
       = hardware_CAN_buffer_overflow s || message_lost interrupt_mask RxFifo0ITs
    /\ tail s' = tail s
    /\ uart_tx s' = uart_tx s
    /\ can_status s' = can_status s.
Proof.
  intros W Fits.
  destruct (callback_effect interrupt_mask hfdcan RxFifo0ITs s W Fits)
    as (s' & R & _ & Rest).
  exists s'. split; [exact R|exact Rest].
Qed.

(** X4.  The overflow flags are latches.  Over any series of callback
    invocations the hardware-overflow flag ends set exactly when it was
    set before or one of the invocations carried the message-lost bit,
    however many did; a software-overflow flag that is set stays set;
    and the callback never moves the read index. *)
Theorem overflow_flags_latch (events : list (list RxMessage * Z)) :
  forall s : state,
    ring_wf s ->
    Forall (fun ev => Forall length_fits (firstn 32 (fst ev))) events ->
    exists s' : state,
      callbacks interrupt_mask events s = Ok s'
      /\ hardware_CAN_buffer_overflow s'
         = hardware_CAN_buffer_overflow s
           || existsb (fun ev => message_lost interrupt_mask (snd ev)) events
      /\ (software_CAN_buffer_overflow s = true ->
          software_CAN_buffer_overflow s' = true)
      /\ tail s' = tail s.
Proof.
  induction events as [|[q its] events IH]; intros s W Fits.
  - exists s. cbn. rewrite orb_false_r. auto.
  - apply Forall_cons_1 in Fits as (Fq & Fits). cbn [fst] in Fq.
    destruct (callback_effect interrupt_mask q its s W Fq)
      as (s1 & R & W1 & _ & S1 & H1 & T1 & _).
    destruct (IH s1 W1 Fits) as (s' & E & H' & S' & T').
    exists s'. cbn [callbacks]. rewrite R. cbn [bind snd].
    split; [exact E|]. split; [|split].
    + rewrite H', H1. cbn [existsb snd]. now rewrite orb_assoc.
    + intros On. apply S'. rewrite S1, On. reflexivity.
    + congruence.
Qed.

(** X5.  Ingest followed by report.  After one callback invocation on
    messages of 0 to 8 bytes, the report sends the notices for the flags
    as the callback left them and then one line group per unread frame:
    those unread before, then the frames of the messages taken, as far
    as the ring had room, in arrival order. *)
Theorem ingest_then_report (hfdcan : list RxMessage) (RxFifo0ITs : Z) (s : state) :
  ring_wf s ->
  Forall message_in_model (firstn 32 hfdcan) ->
  Forall data_array (unread s) ->
  Forall payload_fits (unread s) ->
  exists s1 s2 : state,
    HAL_FDCAN_RxFifo0Callback interrupt_mask hfdcan RxFifo0ITs s
    = Ok (skipn 32 hfdcan, s1)
    /\ send_frame_over_UART 256 s1 = Ok s2
    /\ uart_tx s2
       = uart_tx s
         ++ notices
              (hardware_CAN_buffer_overflow s || message_lost interrupt_mask RxFifo0ITs)
              (software_CAN_buffer_overflow s
               || (255 - occupancy s <? Nat.min 32 (length hfdcan))%nat)
         ++ concat (map frame_line
                      (unread s
                       ++ firstn (255 - occupancy s)
                            (map rx_frame (firstn 32 hfdcan))))
    /\ unread s2 = []
    /\ hardware_CAN_buffer_overflow s2 = false
    /\ software_CAN_buffer_overflow s2 = false.
Proof.
  intros W M A F.
  destruct (callback_effect interrupt_mask hfdcan RxFifo0ITs s W (in_model_fits _ M))
    as (s1 & R & W1 & U1 & S1 & H1 & _ & X1 & _).
  destruct (rx_frames_in_model (firstn 32 hfdcan) (255 - occupancy s) M) as (A' & F').
  assert (A1 : Forall data_array (unread s1))
    by (rewrite U1; apply Forall_app; split; assumption).
  assert (F1 : Forall payload_fits (unread s1))
    by (rewrite U1; apply Forall_app; split; assumption).
  exists s1. eexists. split; [exact R|].
  split; [apply send_frame_over_UART_fits; try assumption; apply occupancy_bound|].
  cbn [uart_tx set_uart_tx hardware_CAN_buffer_overflow software_CAN_buffer_overflow
         set_tail set_software_CAN_buffer_overflow set_hardware_CAN_buffer_overflow].
  rewrite X1, H1, S1, U1. repeat split. apply unread_empty. reflexivity.
Qed.

End CallbackProperties.

Lemma callback_fills_ring_witness :
  let s := initial_state sample_timing in
  let burst := map (fun k => sample_message k 8) (seq 0 40) in
  ring_wf s /\ Forall length_fits (firstn 32 burst)
  /\ exists s' : state,
      HAL_FDCAN_RxFifo0Callback sample_interrupt_mask burst 9 s
      = Ok (skipn 32 burst, s')
      /\ unread s' = map rx_frame (firstn 32 burst)
      /\ software_CAN_buffer_overflow s' = false
      /\ hardware_CAN_buffer_overflow s' = true.
Proof.
  intros s burst.
  assert (W : ring_wf s) by (repeat split; cbn; try lia; reflexivity).
  assert (B : Forall length_fits (firstn 32 burst)).
  { apply Forall_forall. intros m I. apply list_elem_of_In in I. cbn in I.
    repeat (destruct I as [<-|I]; [unfold length_fits; cbn; lia|]). destruct I. }
  split; [exact W|]. split; [exact B|].
  destruct (callback_fills_ring sample_interrupt_mask burst 9 s W B)
    as (s' & R & U & S & H & _).
  exists s'. split; [exact R|]. split; [rewrite U; reflexivity|].
  split; [rewrite S; reflexivity|rewrite H; reflexivity].
Defined.

Lemma overflow_flags_latch_witness :
  let s := initial_state sample_timing in
  let events := [([sample_message 1 2], 8); ([], 9); ([sample_message 2 0], 1)] in
  ring_wf s
  /\ Forall (fun ev => Forall length_fits (firstn 32 (fst ev))) events
  /\ exists s' : state,
      callbacks sample_interrupt_mask events s = Ok s'
      /\ hardware_CAN_buffer_overflow s' = true
      /\ tail s' = 0.
Proof.
  intros s events.
  assert (W : ring_wf s) by (repeat split; cbn; try lia; reflexivity).
  assert (Fits : Forall (fun ev => Forall length_fits (firstn 32 (fst ev))) events).
  { repeat constructor; unfold length_fits; cbn; lia. }
  split; [exact W|]. split; [exact Fits|].
  destruct (overflow_flags_latch sample_interrupt_mask events s W Fits)
    as (s' & E & H & _ & T).
  exists s'. split; [exact E|]. split; [rewrite H; reflexivity|rewrite T; reflexivity].
Defined.

Lemma ingest_then_report_witness :
  let s := initial_state sample_timing in
  let q := [{| rxHeader := {| RxIdentifier := 291; RxDataLength := 3 |};
               rxPayload := [170; 187; 204] |}] in
  ring_wf s /\ Forall message_in_model (firstn 32 q)
  /\ Forall data_array (unread s) /\ Forall payload_fits (unread s)
  /\ exists s1 s2 : state,
      HAL_FDCAN_RxFifo0Callback sample_interrupt_mask q 1 s = Ok ([], s1)
      /\ send_frame_over_UART 256 s1 = Ok s2
      /\ uart_tx s2 = lit "ID: 0x123, DLC: 3, Data: AA BB CC" ++ [CR; LF; LF].
Proof.
  intros s q.
  assert (W : ring_wf s) by (repeat split; cbn; try lia; reflexivity).
  assert (M : Forall message_in_model (firstn 32 q)).
  { repeat constructor; cbn; lia. }
  assert (A : Forall data_array (unread s)) by constructor.
  assert (F : Forall payload_fits (unread s)) by constructor.
  split; [exact W|]. split; [exact M|]. split; [exact A|]. split; [exact F|].
  destruct (ingest_then_report sample_interrupt_mask q 1 s W M A F)
    as (s1 & s2 & R & E & U & _).
  exists s1, s2. split; [exact R|]. split; [exact E|]. rewrite U. reflexivity.
Defined.

Lemma callback_keeps_frames_in_model_witness :
  let s := initial_state sample_timing in
  let q := [sample_message 5 8; sample_message 6 0] in
  ring_wf s
  /\ Forall (fun m => 0 <= RxDataLength (rxHeader m) <= 8) (firstn 32 q)
  /\ Forall data_array (unread s) /\ Forall payload_fits (unread s)
  /\ exists s' : state,
      HAL_FDCAN_RxFifo0Callback sample_interrupt_mask q 1 s = Ok ([], s')
      /\ ring_wf s' /\ Forall data_array (unread s') /\ Forall payload_fits (unread s').
Proof.
  intros s q.
  assert (W : ring_wf s) by (repeat split; cbn; try lia; reflexivity).
  assert (M : Forall (fun m => 0 <= RxDataLength (rxHeader m) <= 8) (firstn 32 q)).
  { repeat constructor; cbn; lia. }
  assert (A : Forall data_array (unread s)) by constructor.
  assert (F : Forall payload_fits (unread s)) by constructor.
  split; [exact W|]. split; [exact M|]. split; [exact A|]. split; [exact F|].
  eexists. split; [reflexivity|].
  eapply (callback_keeps_frames_in_model sample_interrupt_mask q [] 1 s _ W M A F).
  reflexivity.
Defined.

(** ** Further properties of the configuration *)

(** X6.  Manual configuration programs the controller handle with the
    prescaler and the two time segments of the table entry whose rate
    was asked for, and changes nothing but that timing and the status.
    With a rate outside the table the handle keeps the timing it had,
    while the status reads unconfigured. *)
Theorem manual_configuration_programs_entry (e : my_CAN_BitTiming) (b : Z) (s : state) :
  (In e can_timings ->
   snd (my_CAN_manual_configuration (timing_baudrate e) s)
   = set_can_status
       {| is_set := true; baudrate := timing_baudrate e;
          filter_id := filter_id (can_status s);
          mask_id := mask_id (can_status s) |}
       (set_hfdcan1_Init (timing_of e) s))
  /\ (~ In b (map timing_baudrate can_timings) ->
      snd (my_CAN_manual_configuration b s)
      = set_can_status
          {| is_set := false; baudrate := 0;
             filter_id := filter_id (can_status s);
             mask_id := mask_id (can_status s) |} s).
Proof.
  split.
  - intros I. cbn in I.
    repeat (destruct I as [<-|I]; [reflexivity|]). destruct I.
  - intros Miss. unfold my_CAN_manual_configuration.
    rewrite (manual_configuration_loop_miss can_timings b s Miss). reflexivity.
Qed.

Lemma manual_configuration_programs_entry_witness :
  let s := initial_state sample_timing in
  let e := {| timing_baudrate := 400000; prescaler := 4; timeSeg1 := 19; timeSeg2 := 5 |} in
  In e can_timings
  /\ ~ In 300000 (map timing_baudrate can_timings)
  /\ hfdcan1_Init (snd (my_CAN_manual_configuration 400000 s))
     = {| NominalPrescaler := 4; NominalTimeSeg1 := 19; NominalTimeSeg2 := 5 |}
  /\ hfdcan1_Init (snd (my_CAN_manual_configuration 300000 s)) = sample_timing.
Proof.
  intros s e.
  assert (Hit : In e can_timings) by (cbn; do 8 right; left; reflexivity).
  assert (Miss : ~ In 300000 (map timing_baudrate can_timings)).
  { cbn. intros C. repeat (destruct C as [C|C]; [discriminate C|]). exact C. }
  split; [exact Hit|]. split; [exact Miss|]. split.
  - change 400000 with (timing_baudrate e).
    rewrite (proj1 (manual_configuration_programs_entry e 300000 s) Hit). reflexivity.
  - rewrite (proj2 (manual_configuration_programs_entry e 300000 s) Miss). reflexivity.
Defined.

(** What a start does in a configured state. *)
Lemma start_configured (s : state) :
  is_set (can_status s) = true ->
  my_CAN_start s
  = (true,
     set_hal_calls
       (hal_calls s
        ++ [ HAL_FDCAN_Init (hfdcan1_Init s);
             HAL_FDCAN_ConfigGlobalFilter
               FDCAN_REJECT FDCAN_REJECT FDCAN_REJECT_REMOTE FDCAN_REJECT_REMOTE;
             HAL_FDCAN_ConfigFilter
               {| IdType := FDCAN_STANDARD_ID; FilterIndex := 0;
                  FilterType := FDCAN_FILTER_MASK;
                  FilterConfig := FDCAN_FILTER_TO_RXFIFO0;
                  FilterID1 := filter_id (can_status s);
                  FilterID2 := mask_id (can_status s) |};
             HAL_FDCAN_Start;
             HAL_FDCAN_ActivateNotification FDCAN_IT_RX_FIFO0_NEW_MESSAGE 0 ])
       (set_sFilterConfig
          {| IdType := FDCAN_STANDARD_ID; FilterIndex := 0;
             FilterType := FDCAN_FILTER_MASK;
             FilterConfig := FDCAN_FILTER_TO_RXFIFO0;
             FilterID1 := filter_id (can_status s);
             FilterID2 := mask_id (can_status s) |} s)).
Proof.
  intros C. unfold my_CAN_start, hal. rewrite C. f_equal.
  unfold set_hal_calls, set_sFilterConfig. cbn. rewrite <- !app_assoc. reflexivity.
Qed.

(** X7.  Rate and filter are set independently and meet at the start.
    Setting the filter before or after a manual configuration with a
    rate of the table gives the same status, and the start that follows
    initialises the controller with that entry's timing and programs one
    mask filter whose identifier and mask are the two arguments cut to 11
    bits. *)
Theorem filter_and_rate_meet_at_start (e : my_CAN_BitTiming) (f m : Z) (s : state) :
  In e can_timings ->
  let b := timing_baudrate e in
  let rate_first := snd (my_CAN_set_filter_mask f m (snd (my_CAN_manual_configuration b s))) in
  let filter_first := snd (my_CAN_manual_configuration b (snd (my_CAN_set_filter_mask f m s))) in
  can_status rate_first
  = {| is_set := true; baudrate := b;
       filter_id := Z.land f 2047; mask_id := Z.land m 2047 |}
  /\ can_status filter_first = can_status rate_first
  /\ fst (my_CAN_start rate_first) = true
  /\ hal_calls (snd (my_CAN_start rate_first))
     = hal_calls s
       ++ [ HAL_FDCAN_Init (timing_of e);
            HAL_FDCAN_ConfigGlobalFilter
              FDCAN_REJECT FDCAN_REJECT FDCAN_REJECT_REMOTE FDCAN_REJECT_REMOTE;
            HAL_FDCAN_ConfigFilter
              {| IdType := FDCAN_STANDARD_ID; FilterIndex := 0;
                 FilterType := FDCAN_FILTER_MASK;
                 FilterConfig := FDCAN_FILTER_TO_RXFIFO0;
                 FilterID1 := Z.land f 2047;
                 FilterID2 := Z.land m 2047 |};
            HAL_FDCAN_Start;
            HAL_FDCAN_ActivateNotification FDCAN_IT_RX_FIFO0_NEW_MESSAGE 0 ]
  /\ hal_calls (snd (my_CAN_start filter_first))
     = hal_calls (snd (my_CAN_start rate_first)).
Proof.
  intros I b rate_first filter_first.
  assert (R : can_status rate_first
              = {| is_set := true; baudrate := b;
                   filter_id := Z.land f 2047; mask_id := Z.land m 2047 |}
              /\ hfdcan1_Init rate_first = timing_of e
              /\ hal_calls rate_first = hal_calls s).
  { unfold rate_first, b. cbn in I.
    repeat (destruct I as [<-|I]; [repeat split|]). destruct I. }
  assert (F : can_status filter_first = can_status rate_first
              /\ hfdcan1_Init filter_first = timing_of e
              /\ hal_calls filter_first = hal_calls s).
  { unfold filter_first, rate_first, b. cbn in I.
    repeat (destruct I as [<-|I]; [repeat split|]). destruct I. }
  destruct R as (Rc & Ri & Rh). destruct F as (Fc & Fi & Fh).
  assert (Cr : is_set (can_status rate_first) = true) by (rewrite Rc; reflexivity).
  assert (Cf : is_set (can_status filter_first) = true) by (rewrite Fc, Rc; reflexivity).
  rewrite (start_configured rate_first Cr), (start_configured filter_first Cf).
  cbn [fst snd hal_calls set_hal_calls].
  rewrite Fc, Fi, Fh, Rc, Ri, Rh. cbn [filter_id mask_id]. auto.
Qed.

Lemma filter_and_rate_meet_at_start_witness :
  let s := initial_state sample_timing in
  let e := {| timing_baudrate := 125000; prescaler := 8; timeSeg1 := 34; timeSeg2 := 5 |} in
  let configured :=
    snd (my_CAN_set_filter_mask 8191 1792 (snd (my_CAN_manual_configuration 125000 s))) in
  In e can_timings
  /\ can_status configured
     = {| is_set := true; baudrate := 125000; filter_id := 2047; mask_id := 1792 |}
  /\ fst (my_CAN_start configured) = true.
Proof.
  intros s e configured.
  assert (I : In e can_timings) by (cbn; do 5 right; left; reflexivity).
  split; [exact I|].
  destruct (filter_and_rate_meet_at_start e 8191 1792 s I) as (C & _ & T & _).
  split; [exact C|exact T].
Defined.

(** X8.  A stop discards frames, not settings.  It leaves the status,
    the two overflow flags, the filter configuration, the handle timing
    and the UART as they were.  So a start after a stop succeeds exactly
    when the sniffer was configured before, and a report after a stop
    still sends the notices of the flags that were latched, but no
    frame. *)
Theorem stop_keeps_settings (s : state) :
  can_status (my_CAN_stop s) = can_status s
  /\ hardware_CAN_buffer_overflow (my_CAN_stop s) = hardware_CAN_buffer_overflow s
  /\ software_CAN_buffer_overflow (my_CAN_stop s) = software_CAN_buffer_overflow s
  /\ sFilterConfig (my_CAN_stop s) = sFilterConfig s
  /\ hfdcan1_Init (my_CAN_stop s) = hfdcan1_Init s
  /\ uart_tx (my_CAN_stop s) = uart_tx s
  /\ CAN_ring_buffer (my_CAN_stop s) = CAN_ring_buffer s
  /\ fst (my_CAN_start (my_CAN_stop s)) = is_set (can_status s)
  /\ exists s' : state,
      send_frame_over_UART 1 (my_CAN_stop s) = Ok s'
      /\ uart_tx s'
         = uart_tx s
           ++ notices (hardware_CAN_buffer_overflow s) (software_CAN_buffer_overflow s)
      /\ hardware_CAN_buffer_overflow s' = false
      /\ software_CAN_buffer_overflow s' = false.
Proof.
  repeat (split; [reflexivity|]). split.
  { unfold my_CAN_start. change (can_status (my_CAN_stop s)) with (can_status s).
    destruct (is_set (can_status s)); reflexivity. }
  eexists. split.
  { rewrite send_frame_over_UART_notices. cbn [send_frame_over_UART_loop].
    rewrite read_frame_empty by reflexivity. reflexivity. }
  repeat split.
Qed.

Lemma vsnprintf_status_rate (b : Z) :
  vsnprintf 128 ("Baud Rate: %d" ++ crlf EmptyString) [b]
  = format Literal ("Baud Rate: %d" ++ crlf EmptyString) [b].
Proof.
  apply vsnprintf_fits.
  change (format Literal ("Baud Rate: %d" ++ crlf EmptyString) [b])
    with (lit "Baud Rate: "
          ++ pad false 0 (if as_int b <? 0 then lit "-" else [])
               (conv_dec (Z.abs (as_int b)))
          ++ [CR; LF]).
  rewrite !length_app, !pad_length.
  pose proof (conv_dec_length (Z.abs (as_int b))).
  destruct (as_int b <? 0); cbn [length lit list_ascii_of_string]; lia.
Qed.

Lemma vsnprintf_status_filter (v : Z) :
  vsnprintf 128 ("Filter ID: 0x%03x" ++ crlf EmptyString) [v]
  = format Literal ("Filter ID: 0x%03x" ++ crlf EmptyString) [v].
Proof.
  apply vsnprintf_fits.
  change (format Literal ("Filter ID: 0x%03x" ++ crlf EmptyString) [v])
    with (lit "Filter ID: 0x" ++ pad true 3 [] (conv_hex false v) ++ [CR; LF]).
  rewrite !length_app, !pad_length.
  pose proof (conv_hex_length false v). cbn [length lit list_ascii_of_string]. lia.
Qed.

Lemma vsnprintf_status_mask (v : Z) :
  vsnprintf 128 ("Mask ID: 0x%03x" ++ crlf EmptyString) [v]
  = format Literal ("Mask ID: 0x%03x" ++ crlf EmptyString) [v].
Proof.
  apply vsnprintf_fits.
  change (format Literal ("Mask ID: 0x%03x" ++ crlf EmptyString) [v])
    with (lit "Mask ID: 0x" ++ pad true 3 [] (conv_hex false v) ++ [CR; LF]).
  rewrite !length_app, !pad_length.
  pose proof (conv_hex_length false v). cbn [length lit list_ascii_of_string]. lia.
Qed.

(** The status query as a whole. *)
Lemma get_my_CAN_status_effect (to_print : bool) (s : state) :
  get_my_CAN_status to_print s
  = (can_status s,
     if to_print
     then set_uart_tx (uart_tx s ++ status_text (can_status s)) s
     else s).
Proof.
  unfold get_my_CAN_status. destruct to_print; [|reflexivity].
  unfold status_text, my_printf, my_uart_transmit_buffer.
  destruct (is_set (can_status s));
    cbn [can_status uart_tx set_uart_tx];
    rewrite ?vsnprintf_status_rate, vsnprintf_status_filter, vsnprintf_status_mask;
    f_equal; unfold set_uart_tx; cbn [uart_tx software_CAN_buffer_overflow
      hardware_CAN_buffer_overflow head tail CAN_ring_buffer can_status
      sFilterConfig hfdcan1_Init hal_calls];
    f_equal; rewrite <- !app_assoc; reflexivity.
Qed.

(** X9.  A status query reads and never writes the configuration.  It
    returns the stored status; asked not to print it leaves the whole
    state as it is; asked to print it only appends to the UART stream
    the configured or unconfigured heading, the rate line when
    configured, and the filter and mask as [0x%03x], none of them cut by
    the 128-byte buffer of [my_printf] whatever the stored values. *)
Theorem status_query_only_prints (to_print : bool) (s : state) :
  fst (get_my_CAN_status to_print s) = can_status s
  /\ snd (get_my_CAN_status false s) = s
  /\ snd (get_my_CAN_status true s)
     = set_uart_tx (uart_tx s ++ status_text (can_status s)) s
  /\ can_status (snd (get_my_CAN_status to_print s)) = can_status s
  /\ hal_calls (snd (get_my_CAN_status to_print s)) = hal_calls s
  /\ unread (snd (get_my_CAN_status to_print s)) = unread s.
Proof.
  rewrite !get_my_CAN_status_effect. cbn [fst snd].
  destruct to_print; repeat split.
Qed.

Example status_text_configured :
  status_text {| is_set := true; baudrate := 500000; filter_id := 291; mask_id := 2047 |}
  = lit "CAN configured." ++ [CR; LF]
    ++ lit "Baud Rate: 500000" ++ [CR; LF]
    ++ lit "Filter ID: 0x123" ++ [CR; LF]
    ++ lit "Mask ID: 0x7ff" ++ [CR; LF].
Proof. reflexivity. Qed.

(** ** Further properties of the automatic detection *)

Lemma vsnprintf_trying (b : Z) :
  vsnprintf 128 ("Trying Baud Rate: %d" ++ crlf EmptyString) [b]
  = format Literal ("Trying Baud Rate: %d" ++ crlf EmptyString) [b].
Proof.
  apply vsnprintf_fits.
  change (format Literal ("Trying Baud Rate: %d" ++ crlf EmptyString) [b])
    with (lit "Trying Baud Rate: "
          ++ pad false 0 (if as_int b <? 0 then lit "-" else [])
               (conv_dec (Z.abs (as_int b)))
          ++ [CR; LF]).
  rewrite !length_app, !pad_length.
  pose proof (conv_dec_length (Z.abs (as_int b))).
  destruct (as_int b <? 0); cbn [length lit list_ascii_of_string]; lia.
Qed.

Lemma probed_untouched (e : my_CAN_BitTiming) (to_print : bool) (s : state) :
  uart_tx (probed e to_print s)
  = uart_tx s ++ (if to_print then trying_line e else [])
  /\ head (probed e to_print s) = head s
  /\ tail (probed e to_print s) = tail s
  /\ CAN_ring_buffer (probed e to_print s) = CAN_ring_buffer s
  /\ hardware_CAN_buffer_overflow (probed e to_print s) = hardware_CAN_buffer_overflow s
  /\ software_CAN_buffer_overflow (probed e to_print s) = software_CAN_buffer_overflow s.
Proof.
  unfold probed, trying_line, my_printf, my_uart_transmit_buffer.
  destruct to_print; cbn [uart_tx set_hal_calls set_hfdcan1_Init set_uart_tx];
    rewrite ?vsnprintf_trying, ?app_nil_r; repeat split.
Qed.

Lemma controller_running_app (l k : list hal_call) :
  controller_running (l ++ k)
  = fold_left
      (fun running c =>
         match c with
         | HAL_FDCAN_Start => true
         | HAL_FDCAN_Stop => false
         | _ => running
         end) k (controller_running l).
Proof. unfold controller_running. apply fold_left_app. Qed.

Lemma notification_enabled_app (l k : list hal_call) :
  notification_enabled (l ++ k)
  = fold_left
      (fun enabled c =>
         match c with
         | HAL_FDCAN_ActivateNotification _ _ => true
         | HAL_FDCAN_DeactivateNotification _ => false
         | _ => enabled
         end) k (notification_enabled l).
Proof. unfold notification_enabled. apply fold_left_app. Qed.

(** Probes leave the controller stopped and the notification alone. *)
Lemma probes_leave_stopped (tried : list my_CAN_BitTiming) :
  forall l : list hal_call,
    controller_running (l ++ concat (map probe_calls tried))
    = (match tried with [] => controller_running l | _ => false end)
    /\ notification_enabled (l ++ concat (map probe_calls tried))
       = notification_enabled l.
Proof.
  induction tried as [|e tried IH]; intros l.
  - cbn. rewrite app_nil_r. auto.
  - cbn [map concat]. rewrite app_assoc.
    destruct (IH (l ++ probe_calls e)) as (R & N). rewrite R, N.
    rewrite controller_running_app, notification_enabled_app. cbn.
    destruct tried; auto.
Qed.

Lemma last_cons_default {A : Type} (l : list A) :
  forall a d : A, List.last (a :: l) d = List.last l a.
Proof.
  induction l as [|x l IH]; intros a d; [reflexivity|].
  change (List.last (a :: x :: l) d) with (List.last (x :: l) d).
  rewrite !IH. reflexivity.
Qed.

Section AutoConfigurationAnyBus.

Variable RxFifo0FillLevel : FDCAN_InitTypeDef -> Z.

(** The sweep on any bus and any table. *)
Lemma auto_configuration_loop_any (table : list my_CAN_BitTiming) (to_print : bool) :
  forall s : state,
    let r := auto_configuration_loop RxFifo0FillLevel table to_print s in
    let tried := attempted RxFifo0FillLevel table in
    fst r
    = match List.find (has_traffic RxFifo0FillLevel) table with
      | Some e => {| is_set := true; baudrate := timing_baudrate e;
                     filter_id := filter_id (can_status s);
                     mask_id := mask_id (can_status s) |}
      | None => {| is_set := false; baudrate := 0;
                   filter_id := filter_id (can_status s);
                   mask_id := mask_id (can_status s) |}
      end
    /\ can_status (snd r) = fst r
    /\ hal_calls (snd r) = hal_calls s ++ concat (map probe_calls tried)
    /\ uart_tx (snd r)
       = uart_tx s ++ (if to_print then concat (map trying_line tried) else [])
    /\ hfdcan1_Init (snd r) = List.last (map timing_of tried) (hfdcan1_Init s)
    /\ head (snd r) = head s
    /\ tail (snd r) = tail s
    /\ CAN_ring_buffer (snd r) = CAN_ring_buffer s
    /\ hardware_CAN_buffer_overflow (snd r) = hardware_CAN_buffer_overflow s
    /\ software_CAN_buffer_overflow (snd r) = software_CAN_buffer_overflow s.
Proof.
  induction table as [|e rest IH]; intros s.
  - cbn. rewrite ?app_nil_r. destruct to_print; repeat split; now rewrite app_nil_r.
  - cbv zeta. rewrite auto_configuration_loop_step.
    cbn [List.find attempted]. unfold has_traffic at 1.
    destruct (probed_fields e to_print s) as (C & H & T).
    destruct (probed_untouched e to_print s) as (X & Hd & Tl & B & Hw & Sw).
    destruct (RxFifo0FillLevel (timing_of e) >? 0).
    + cbn [assign_status fst snd can_status hal_calls uart_tx hfdcan1_Init head tail
             CAN_ring_buffer hardware_CAN_buffer_overflow software_CAN_buffer_overflow
             set_can_status map concat List.last].
      rewrite H, X, T, Hd, Tl, B, Hw, Sw, !app_nil_r.
      destruct to_print; repeat split.
    + specialize (IH (probed e to_print s)). cbv zeta in IH.
      destruct IH as (I1 & I2 & I3 & I4 & I5 & I6 & I7 & I8 & I9 & I10).
      rewrite I2, I1, I3, I4, I5, I6, I7, I8, I9, I10, C, H, X, T, Hd, Tl, B, Hw, Sw.
      cbn [map concat]. rewrite <- !app_assoc.
      repeat split; try reflexivity;
        first [ destruct (List.find (has_traffic RxFifo0FillLevel) rest); reflexivity
              | destruct to_print; rewrite ?app_nil_r; reflexivity
              | symmetry; apply last_cons_default ].
Qed.

Lemma find_last_attempted (table : list my_CAN_BitTiming) (e : my_CAN_BitTiming) :
  forall d : FDCAN_InitTypeDef,
    List.find (has_traffic RxFifo0FillLevel) table = Some e ->
    List.last (map timing_of (attempted RxFifo0FillLevel table)) d = timing_of e.
Proof.
  induction table as [|x rest IH]; intros d F; [discriminate F|].
  cbn [List.find attempted] in *. unfold has_traffic at 1 in F.
  destruct (RxFifo0FillLevel (timing_of x) >? 0).
  - injection F as ->. reflexivity.
  - cbn [map]. specialize (IH (timing_of x) F).
    destruct (attempted RxFifo0FillLevel rest) eqn:A.
    + destruct rest; [discriminate F|]. cbn in A. discriminate A.
    + rewrite <- IH. apply last_cons_default.
Qed.

(** X10.  Auto-configuration on any bus.  It probes the table in order
    up to the first entry at which the controller reports a queued
    frame, and returns and stores a status that is configured with that
    entry's rate, or unconfigured with rate 0 when no entry has traffic.
    With [to_print] it sends one [Trying Baud Rate] line per probe, and
    nothing otherwise.  Every probe stops the controller again, so the
    controller is stopped on return; the receive notification, the ring
    and the overflow flags are not touched. *)
Theorem auto_configuration_on_any_bus (to_print : bool) (s : state) :
  let r := my_CAN_auto_configuration RxFifo0FillLevel to_print s in
  let tried := attempted RxFifo0FillLevel can_timings in
  fst r
  = match List.find (fun e => RxFifo0FillLevel (timing_of e) >? 0) can_timings with
    | Some e => {| is_set := true; baudrate := timing_baudrate e;
                   filter_id := filter_id (can_status s);
                   mask_id := mask_id (can_status s) |}
    | None => {| is_set := false; baudrate := 0;
                 filter_id := filter_id (can_status s);
                 mask_id := mask_id (can_status s) |}
    end
  /\ can_status (snd r) = fst r
  /\ hal_calls (snd r) = hal_calls s ++ concat (map probe_calls tried)
  /\ uart_tx (snd r)
     = uart_tx s ++ (if to_print then concat (map trying_line tried) else [])
  /\ controller_running (hal_calls (snd r)) = false
  /\ notification_enabled (hal_calls (snd r)) = notification_enabled (hal_calls s)
  /\ head (snd r) = head s
  /\ tail (snd r) = tail s
  /\ CAN_ring_buffer (snd r) = CAN_ring_buffer s
  /\ hardware_CAN_buffer_overflow (snd r) = hardware_CAN_buffer_overflow s
  /\ software_CAN_buffer_overflow (snd r) = software_CAN_buffer_overflow s.
Proof.
  intros r tried. subst r tried. unfold my_CAN_auto_configuration.
  destruct (auto_configuration_loop_any can_timings to_print s)
    as (I1 & I2 & I3 & I4 & _ & I6 & I7 & I8 & I9 & I10).
  destruct (probes_leave_stopped (attempted RxFifo0FillLevel can_timings) (hal_calls s))
    as (R & N).
  rewrite <- I3 in R, N.
  split; [exact I1|]. split; [exact I2|]. split; [exact I3|]. split; [exact I4|].
  split; [rewrite R; reflexivity|]. split; [exact N|].
  split; [exact I6|]. split; [exact I7|]. split; [exact I8|]. split; [exact I9|exact I10].
Qed.

(** X11.  Detection followed by a start.  When the sweep found traffic
    at an entry, the start succeeds and initialises the controller with
    that entry's timing, the handle still holding what the last probe
    programmed, and with the filter and mask stored before the sweep.
    When it found none, the start fails without a HAL call. *)
Theorem auto_configuration_then_start (to_print : bool) (s : state) :
  let r := my_CAN_auto_configuration RxFifo0FillLevel to_print s in
  match List.find (fun e => RxFifo0FillLevel (timing_of e) >? 0) can_timings with
  | Some e =>
      exists s' : state,
        my_CAN_start (snd r) = (true, s')
        /\ hal_calls s'
           = hal_calls (snd r)
             ++ [ HAL_FDCAN_Init (timing_of e);
                  HAL_FDCAN_ConfigGlobalFilter
                    FDCAN_REJECT FDCAN_REJECT FDCAN_REJECT_REMOTE FDCAN_REJECT_REMOTE;
                  HAL_FDCAN_ConfigFilter
                    {| IdType := FDCAN_STANDARD_ID; FilterIndex := 0;
                       FilterType := FDCAN_FILTER_MASK;
                       FilterConfig := FDCAN_FILTER_TO_RXFIFO0;
                       FilterID1 := filter_id (can_status s);
                       FilterID2 := mask_id (can_status s) |};
                  HAL_FDCAN_Start;
                  HAL_FDCAN_ActivateNotification FDCAN_IT_RX_FIFO0_NEW_MESSAGE 0 ]
        /\ controller_running (hal_calls s') = true
        /\ notification_enabled (hal_calls s') = true
  | None => my_CAN_start (snd r) = (false, snd r)
  end.
Proof.
  intros r. unfold my_CAN_auto_configuration in r.
  destruct (auto_configuration_loop_any can_timings to_print s)
    as (I1 & I2 & _ & _ & I5 & _).
  fold r in I1, I2, I5. change (List.find (fun e => RxFifo0FillLevel (timing_of e) >? 0) can_timings)
    with (List.find (has_traffic RxFifo0FillLevel) can_timings).
  destruct (List.find (has_traffic RxFifo0FillLevel) can_timings) as [e|] eqn:F.
  - assert (C : is_set (can_status (snd r)) = true) by (rewrite I2, I1; reflexivity).
    eexists. split; [apply (start_configured _ C)|].
    cbn [hal_calls set_hal_calls].
    rewrite I5, (find_last_attempted can_timings e _ F), I2, I1. cbn [filter_id mask_id].
    split; [reflexivity|].
    rewrite controller_running_app, notification_enabled_app. split; reflexivity.
  - unfold my_CAN_start. rewrite I2, I1. reflexivity.
Qed.

End AutoConfigurationAnyBus.

Example auto_configuration_prints_each_probe :
  uart_tx (snd (my_CAN_auto_configuration
                  (fun init => if NominalPrescaler init =? 50 then 1 else 0)
                  true (initial_state sample_timing)))
  = lit "Trying Baud Rate: 5000" ++ [CR; LF]
    ++ lit "Trying Baud Rate: 10000" ++ [CR; LF]
    ++ lit "Trying Baud Rate: 20000" ++ [CR; LF].
Proof. reflexivity. Qed.

(** ** Width of the report fields *)

Lemma strip_zeros_repeat (n : nat) (l : list Z) :
  l <> [] -> strip_zeros (repeat 0 n ++ l) = strip_zeros l.
Proof.
  intros N. induction n as [|n IH]; [reflexivity|].
  cbn [repeat app]. destruct (repeat 0 n ++ l) as [|x r] eqn:E.
  - destruct n; cbn in E; [contradiction|discriminate E].
  - exact IH.
Qed.

Lemma strip_zeros_nonempty (l : list Z) : l <> [] -> strip_zeros l <> [].
Proof.
  induction l as [|d l IH]; intros N; [contradiction|].
  destruct d; try discriminate.
  destruct l as [|x r]; [discriminate|].
  change (strip_zeros (0 :: x :: r)) with (strip_zeros (x :: r)).
  apply IH. discriminate.
Qed.

(** A value below [base ^ k] has at most [k] significant digits. *)
Lemma digits_small (base : Z) (count k : nat) (v : Z) :
  1 < base -> 0 <= v < base ^ Z.of_nat k -> (k <= count)%nat ->
  digits base count v = repeat 0 (count - k) ++ digits base k v.
Proof.
  intros B V K. unfold digits.
  replace count with (k + (count - k))%nat at 1 by lia.
  rewrite seq_app, rev_app_distr, map_app. f_equal.
  cbn [Nat.add]. generalize (count - k)%nat. intros n.
  assert (Z0s : forall i, In i (rev (seq k n)) ->
                          (v / base ^ Z.of_nat i) mod base = 0).
  { intros i Hi. apply in_rev, in_seq in Hi.
    rewrite Z.div_small; [apply Z.mod_0_l; lia|].
    split; [lia|]. eapply Z.lt_le_trans; [apply V|].
    apply Z.pow_le_mono_r; lia. }
  rewrite <- (length_seq n k) at 2. rewrite <- length_rev.
  induction (rev (seq k n)) as [|i l IH]; [reflexivity|].
  cbn [map length repeat]. rewrite Z0s by now left. f_equal.
  apply IH. intros j Hj. apply Z0s. now right.
Qed.

Lemma significant_digits (base : Z) (count k : nat) (v : Z) :
  1 < base -> 0 <= v < base ^ Z.of_nat k -> (1 <= k <= count)%nat ->
  (1 <= length (strip_zeros (digits base count v)) <= k)%nat.
Proof.
  intros B V K.
  assert (N : digits base k v <> []).
  { intros E. apply (f_equal (@length Z)) in E. rewrite digits_length in E.
    cbn in E. lia. }
  rewrite (digits_small base count k v B V) by lia.
  rewrite strip_zeros_repeat by exact N. split.
  - pose proof (strip_zeros_nonempty _ N) as S.
    destruct (strip_zeros (digits base k v)); [contradiction|cbn; lia].
  - etransitivity; [apply strip_zeros_length|]. now rewrite digits_length.
Qed.

Lemma byte_text_length (b : Z) : 0 <= b < 256 -> length (byte_text b) = 3%nat.
Proof.
  intros B.
  change (byte_text b) with (lit " " ++ pad true 2 [] (conv_hex true b) ++ []).
  rewrite !length_app, pad_length. unfold conv_hex. rewrite length_map.
  rewrite Z.mod_small by lia.
  pose proof (significant_digits 16 8 2 b ltac:(lia) ltac:(cbn; lia) ltac:(lia)).
  cbn [length lit list_ascii_of_string]. lia.
Qed.

(** X12.  Report fields have a fixed width for standard frames.  For an
    11-bit identifier, a data length of 0 to 8 and payload bytes below
    256, the identifier is printed with exactly three hexadecimal
    digits, each byte with exactly two, and the whole report of a frame
    with [n] bytes has [27 + 3 n] characters. *)
Theorem standard_frame_report_width (f : my_CAN_Frame) :
  0 <= Identifier f < 2048 ->
  0 <= DataLength f <= 8 ->
  data_array f ->
  Forall (fun b => 0 <= b < 256) (Data f) ->
  length (pad true 3 [] (conv_hex true (Identifier f))) = 3%nat
  /\ Forall (fun b => length (byte_text b) = 3%nat) (Data f)
  /\ length (frame_line f) = (27 + 3 * Z.to_nat (DataLength f))%nat.
Proof.
  intros I L A B.
  assert (Id : length (pad true 3 [] (conv_hex true (Identifier f))) = 3%nat).
  { rewrite pad_length. unfold conv_hex. rewrite length_map, Z.mod_small by lia.
    pose proof (significant_digits 16 8 3 (Identifier f)
                  ltac:(lia) ltac:(cbn; lia) ltac:(lia)).
    cbn [length]. lia. }
  assert (Bytes : Forall (fun b => length (byte_text b) = 3%nat) (Data f)).
  { eapply Forall_impl; [exact B|]. intros b Hb. apply byte_text_length. exact Hb. }
  split; [exact Id|]. split; [exact Bytes|].
  unfold frame_line.
  change (format Literal "ID: 0x%03X, DLC: %d, Data:" [Identifier f; DataLength f])
    with (lit "ID: 0x" ++ pad true 3 [] (conv_hex true (Identifier f))
          ++ lit ", DLC: "
          ++ pad false 0 (if as_int (DataLength f) <? 0 then lit "-" else [])
               (conv_dec (Z.abs (as_int (DataLength f))))
          ++ lit ", Data:").
  assert (Int : as_int (DataLength f) = DataLength f).
  { unfold as_int. rewrite Z.mod_small by lia.
    destruct (Z.ltb_spec (DataLength f) (2 ^ 31)); lia. }
  rewrite Int, Z.abs_eq by lia.
  replace (DataLength f <? 0) with false by (symmetry; apply Z.ltb_ge; lia).
  rewrite !length_app, Id, pad_length. unfold conv_dec. rewrite length_map.
  pose proof (significant_digits 10 10 1 (DataLength f)
                ltac:(lia) ltac:(cbn; lia) ltac:(lia)) as D.
  assert (C : length (concat (map byte_text (firstn (Z.to_nat (DataLength f)) (Data f))))
              = (3 * Z.to_nat (DataLength f))%nat).
  { unfold data_array in A.
    assert (T : Forall (fun b => length (byte_text b) = 3%nat)
                  (firstn (Z.to_nat (DataLength f)) (Data f)))
      by (apply Forall_take; exact Bytes).
    assert (Len : length (firstn (Z.to_nat (DataLength f)) (Data f))
                  = Z.to_nat (DataLength f))
      by (rewrite length_firstn; lia).
    revert T Len. generalize (firstn (Z.to_nat (DataLength f)) (Data f)).
    generalize (Z.to_nat (DataLength f)). intros n l. revert n.
    induction l as [|b l IH]; intros n T Len.
    - cbn in *. lia.
    - apply Forall_cons_1 in T as (Tb & T). cbn [length] in Len.
      cbn [map concat]. rewrite length_app, Tb.
      rewrite (IH (length l) T eq_refl). lia. }
  rewrite C. cbn [length lit list_ascii_of_string]. lia.
Qed.

Lemma standard_frame_report_width_witness :
  0 <= Identifier frame_0x123 < 2048
  /\ 0 <= DataLength frame_0x123 <= 8
  /\ data_array frame_0x123
  /\ Forall (fun b => 0 <= b < 256) (Data frame_0x123)
  /\ length (frame_line frame_0x123) = 36%nat.
Proof.
  assert (I : 0 <= Identifier frame_0x123 < 2048) by (cbn; lia).
  assert (L : 0 <= DataLength frame_0x123 <= 8) by (cbn; lia).
  assert (A : data_array frame_0x123) by reflexivity.
  assert (B : Forall (fun b => 0 <= b < 256) (Data frame_0x123)).
  { repeat constructor; cbn; lia. }
  split; [exact I|]. split; [exact L|]. split; [exact A|]. split; [exact B|].
  exact (proj2 (proj2 (standard_frame_report_width frame_0x123 I L A B))).
Defined.

(** ** Line input *)

Lemma line_end_eqb (ch : ascii) :
  Ascii.eqb ch CR || Ascii.eqb ch LF = true <-> line_end ch.
Proof.
  unfold line_end. rewrite orb_true_iff, !Ascii.eqb_eq. reflexivity.
Qed.

Lemma my_scanf_loop_spec (room : nat) :
  forall buf rx : text,
    match my_scanf_loop room buf rx with
    | Some (buf', rest) =>
        exists line : text,
          buf' = buf ++ line
          /\ (length line <= room)%nat
          /\ Forall (fun ch => ~ line_end ch) line
          /\ ((exists t, line_end t /\ rx = line ++ t :: rest)
              \/ (length line = room /\ rx = line ++ rest))
    | None => (length rx < room)%nat /\ Forall (fun ch => ~ line_end ch) rx
    end.
Proof.
  induction room as [|room IH]; intros buf rx.
  - cbn. exists []. rewrite app_nil_r. repeat split; auto.
  - destruct rx as [|ch rx]; cbn [my_scanf_loop my_uart_receive_char].
    + split; [cbn; lia|constructor].
    + destruct (Ascii.eqb ch CR || Ascii.eqb ch LF) eqn:T.
      * apply line_end_eqb in T. exists []. rewrite app_nil_r.
        repeat split; [cbn; lia|constructor|].
        left. exists ch. auto.
      * assert (N : ~ line_end ch).
        { intros L. apply line_end_eqb in L. congruence. }
        specialize (IH (buf ++ [ch]) rx).
        destruct (my_scanf_loop room (buf ++ [ch]) rx) as [[buf' rest]|].
        -- destruct IH as (line & E & L & F & D).
           exists (ch :: line). rewrite E, <- app_assoc.
           repeat split; [cbn; lia|constructor; assumption|].
           destruct D as [(t & Lt & ->)|(Ll & ->)];
             [left; exists t; auto|right; cbn; auto].
        -- destruct IH as (L & F). split; [cbn; lia|constructor; assumption].
Qed.

(** X13.  [my_scanf] reads one line and cannot overrun its buffer.  It
    stores at most 127 characters, none of them a CR or LF, so that the
    terminating NUL falls inside the 128-byte array.  It takes from the
    input exactly the line and its terminator, or, for a line that does
    not end within 127 characters, exactly its first 127 characters,
    leaving the rest to the next read.  It waits for ever only when the
    input ends before a terminator and before 127 characters. *)
Theorem my_scanf_reads_one_line (rx : text) :
  match my_scanf_loop 127 [] rx with
  | Some (buf, rest) =>
      (length buf <= 127)%nat
      /\ Forall (fun ch => ~ line_end ch) buf
      /\ ((exists t, line_end t /\ rx = buf ++ t :: rest)
          \/ (length buf = 127%nat /\ rx = buf ++ rest))
      /\ (length rest < length rx)%nat
  | None => (length rx < 127)%nat /\ Forall (fun ch => ~ line_end ch) rx
  end.
Proof.
  pose proof (my_scanf_loop_spec 127 [] rx) as S.
  destruct (my_scanf_loop 127 [] rx) as [[buf rest]|]; [|exact S].
  destruct S as (line & -> & L & F & D). cbn [app].
  repeat split; try assumption.
  destruct D as [(t & _ & ->)|(Ll & ->)]; rewrite length_app; cbn; lia.
Qed.

Example my_scanf_line_and_rest :
  my_scanf_loop 127 [] (lit "500000" ++ [CR; LF] ++ lit "q")
  = Some (lit "500000", [LF] ++ lit "q").
Proof. reflexivity. Qed.

(** ** The settings menu *)

Lemma idle_same (s s' : state) :
  hal_calls s' = hal_calls s -> head s' = head s -> tail s' = tail s ->
  capture_idle s -> capture_idle s'.
Proof. unfold capture_idle. intros -> -> ->. auto. Qed.

Lemma manual_configuration_loop_capture (table : list my_CAN_BitTiming) (b : Z) (s : state) :
  hal_calls (snd (manual_configuration_loop table b s)) = hal_calls s
  /\ head (snd (manual_configuration_loop table b s)) = head s
  /\ tail (snd (manual_configuration_loop table b s)) = tail s.
Proof.
  induction table as [|e rest IH]; cbn [manual_configuration_loop].
  - repeat split.
  - destruct (negb (timing_baudrate e =? b)); [exact IH|repeat split].
Qed.

Lemma my_scanf_loop_consumes (rx buf rest : text) :
  my_scanf_loop 127 [] rx = Some (buf, rest) -> (length rest < length rx)%nat.
Proof.
  intros E. pose proof (my_scanf_loop_spec 127 [] rx) as S. rewrite E in S.
  destruct S as (line & _ & _ & _ & [(t & _ & ->)|(Ll & ->)]);
    rewrite length_app; cbn; lia.
Qed.

Section MenuProperties.

Variable RxFifo0FillLevel : FDCAN_InitTypeDef -> Z.
Variable vsscanf : text -> string -> option Z.

Lemma my_scanf_consumes (fmt : string) (rx rest : text) (scanned : option Z) :
  my_scanf vsscanf fmt rx = Some (scanned, rest) -> (length rest < length rx)%nat.
Proof.
  unfold my_scanf. destruct (my_scanf_loop 127 [] rx) as [[buf rx']|] eqn:E;
    [|discriminate]. intros [= _ <-]. exact (my_scanf_loop_consumes _ _ _ E).
Qed.

Lemma auto_configuration_idle (to_print : bool) (s : state) :
  capture_idle s ->
  capture_idle (snd (my_CAN_auto_configuration RxFifo0FillLevel to_print s)).
Proof.
  intros (R & N & Hd & Tl). unfold my_CAN_auto_configuration.
  destruct (auto_configuration_loop_any RxFifo0FillLevel can_timings to_print s)
    as (_ & _ & I3 & _ & _ & I6 & I7 & _).
  destruct (probes_leave_stopped (attempted RxFifo0FillLevel can_timings) (hal_calls s))
    as (R' & N').
  unfold capture_idle. rewrite I3, I6, I7, R', N', R.
  repeat split; assumption.
Qed.

(** One pass through the loop body, from an idle capture. *)
Lemma settings_menu_iteration_spec (rx : text) (s : state) :
  capture_idle s ->
  match settings_menu_iteration RxFifo0FillLevel vsscanf rx s with
  | Continue rx' s' => capture_idle s' /\ (length rx' < length rx)%nat
  | Return rx' s' =>
      is_set (can_status s') = true
      /\ controller_running (hal_calls s') = true
      /\ notification_enabled (hal_calls s') = true
      /\ head s' = 0 /\ tail s' = 0
      /\ (length rx' < length rx)%nat
  | Block s' => capture_idle s'
  end.
Proof.
  intros Idle. unfold settings_menu_iteration.
  destruct (my_scanf vsscanf " %c" rx) as [[scanned rx1]|] eqn:S1; [|exact Idle].
  pose proof (my_scanf_consumes _ _ _ _ S1) as L1.
  destruct (_ =? char_code "a").
  { pose proof (auto_configuration_idle true s Idle) as A.
    destruct (my_CAN_auto_configuration RxFifo0FillLevel true s) as [status s1].
    cbn [snd] in A. split; [|exact L1].
    destruct (is_set status); [rewrite get_my_CAN_status_effect|];
      (eapply idle_same; [| | |exact A]); reflexivity. }
  destruct (_ =? char_code "m").
  { destruct (my_scanf vsscanf " %d" rx1) as [[scanned2 rx2]|] eqn:S2.
    - pose proof (my_scanf_consumes _ _ _ _ S2) as L2.
      match goal with
      | |- context [my_CAN_manual_configuration ?b ?x] =>
          pose proof (manual_configuration_loop_capture can_timings b x) as (M1 & M2 & M3);
          fold (my_CAN_manual_configuration b x) in M1, M2, M3;
          destruct (my_CAN_manual_configuration b x) as [status s2]
      end.
      cbn [snd] in M1, M2, M3. split; [|lia].
      destruct (is_set status); [rewrite get_my_CAN_status_effect|];
        (eapply idle_same; [| | |exact Idle]);
        cbn [snd hal_calls head tail set_uart_tx my_printf my_uart_transmit_buffer
               print_menu]; assumption.
    - eapply idle_same; [| | |exact Idle]; reflexivity. }
  destruct (_ =? char_code "s").
  { destruct (my_scanf vsscanf " 0x%x" rx1) as [[scanned2 rx2]|] eqn:S2.
    - pose proof (my_scanf_consumes _ _ _ _ S2) as L2.
      destruct (my_scanf vsscanf " 0x%x" rx2) as [[scanned3 rx3]|] eqn:S3.
      + pose proof (my_scanf_consumes _ _ _ _ S3) as L3. split; [|lia].
        rewrite get_my_CAN_status_effect.
        eapply idle_same; [| | |exact Idle]; reflexivity.
      + eapply idle_same; [| | |exact Idle]; reflexivity.
    - eapply idle_same; [| | |exact Idle]; reflexivity. }
  destruct (_ =? char_code "g").
  { split; [|exact L1]. rewrite get_my_CAN_status_effect.
    eapply idle_same; [| | |exact Idle]; reflexivity. }
  destruct (_ =? char_code "q").
  { destruct (is_set (can_status s)) eqn:C.
    - rewrite (start_configured s C). destruct Idle as (R & N & Hd & Tl).
      cbn [can_status hal_calls head tail set_hal_calls set_sFilterConfig].
      rewrite controller_running_app, notification_enabled_app. auto 10.
    - unfold my_CAN_start. rewrite C. split; [|exact L1].
      eapply idle_same; [| | |exact Idle]; reflexivity. }
  split; [|exact L1]. eapply idle_same; [| | |exact Idle]; reflexivity.
Qed.

Lemma settings_menu_loop_spec (fuel : nat) :
  forall (system_state : SystemState) (rx : text) (s : state),
    capture_idle s ->
    match settings_menu_loop RxFifo0FillLevel vsscanf fuel system_state rx s with
    | MenuReturned system_state' rx' s' =>
        system_state' = STATE_RUN
        /\ is_set (can_status s') = true
        /\ controller_running (hal_calls s') = true
        /\ notification_enabled (hal_calls s') = true
        /\ head s' = 0 /\ tail s' = 0
    | MenuBlocked system_state' s' =>
        system_state' = system_state /\ capture_idle s'
    | MenuOutOfFuel => (fuel <= length rx)%nat
    end.
Proof.
  induction fuel as [|fuel IH]; intros system_state rx s Idle.
  - cbn. lia.
  - cbn [settings_menu_loop].
    pose proof (settings_menu_iteration_spec rx s Idle) as It.
    destruct (settings_menu_iteration RxFifo0FillLevel vsscanf rx s) as [rx' s'|rx' s'|s'].
    + destruct It as (Idle' & L). specialize (IH system_state rx' s' Idle').
      destruct (settings_menu_loop RxFifo0FillLevel vsscanf fuel system_state rx' s');
        try assumption. lia.
    + destruct It as (C & R & N & Hd & Tl & _). auto 10.
    + auto.
Qed.

Lemma settings_menu_entry_idle (s : state) : capture_idle (print_menu (my_CAN_stop s)).
Proof.
  unfold capture_idle.
  change (hal_calls (print_menu (my_CAN_stop s))) with (hal_calls (my_CAN_stop s)).
  unfold my_CAN_stop, hal. cbn [hal_calls set_hal_calls set_head set_tail].
  rewrite <- app_assoc, controller_running_app, notification_enabled_app.
  repeat split.
Qed.

(** X14.  The menu hands over a running sniffer or none.  Whatever the
    input, the bus and the parser do, when [settings_menu] returns,
    [system_state] is [STATE_RUN], the status is configured, the
    controller was started and the receive notification enabled by the
    last calls, and the ring is empty.  As long as it has not returned,
    that is when it waits for input, the controller is stopped, the
    notification is disabled, the ring is empty and [system_state] is
    unchanged. *)
Theorem menu_returns_only_started
  (fuel : nat) (system_state : SystemState) (rx : text) (s : state) :
  match settings_menu RxFifo0FillLevel vsscanf fuel system_state rx s with
  | MenuReturned system_state' rx' s' =>
      system_state' = STATE_RUN
      /\ is_set (can_status s') = true
      /\ controller_running (hal_calls s') = true
      /\ notification_enabled (hal_calls s') = true
      /\ head s' = 0 /\ tail s' = 0
  | MenuBlocked system_state' s' =>
      system_state' = system_state
      /\ controller_running (hal_calls s') = false
      /\ notification_enabled (hal_calls s') = false
      /\ head s' = 0 /\ tail s' = 0
  | MenuOutOfFuel => True
  end.
Proof.
  unfold settings_menu.
  pose proof (settings_menu_loop_spec fuel system_state rx _
                (settings_menu_entry_idle s)) as L.
  destruct (settings_menu_loop _ _ _ _ _ _); [exact L| |exact I].
  destruct L as (E & Idle). split; [exact E|exact Idle].
Qed.

(** X15.  Every pass through the menu loop takes at least one character
    of input.  So on a finite input the menu makes at most as many
    passes as there are characters: it either returns or ends up waiting
    for more input. *)
Theorem menu_consumes_input
  (fuel : nat) (system_state : SystemState) (rx : text) (s : state) :
  (length rx < fuel)%nat ->
  settings_menu RxFifo0FillLevel vsscanf fuel system_state rx s <> MenuOutOfFuel.
Proof.
  intros Lt E. unfold settings_menu in E.
  pose proof (settings_menu_loop_spec fuel system_state rx _
                (settings_menu_entry_idle s)) as L.
  rewrite E in L. lia.
Qed.

End MenuProperties.

Lemma menu_consumes_input_witness :
  let rx := lit "q" ++ [CR] ++ lit "m" ++ [CR] ++ lit "500000" ++ [CR] ++ lit "q" ++ [CR] in
  (length rx < 14)%nat
  /\ settings_menu silent_bus sample_vsscanf 14 STATE_MENU rx (initial_state sample_timing)
     <> MenuOutOfFuel.
Proof.
  intros rx.
  assert (Lt : (length rx < 14)%nat) by (vm_compute; lia).
  split; [exact Lt|].
  exact (menu_consumes_input silent_bus sample_vsscanf 14 STATE_MENU rx
           (initial_state sample_timing) Lt).
Defined.

(** A session: a start refused, a manual configuration, a start. *)
Example menu_session :
  exists s' : state,
    settings_menu silent_bus sample_vsscanf 14 STATE_MENU
      (lit "q" ++ [CR] ++ lit "m" ++ [CR] ++ lit "500000" ++ [CR] ++ lit "q" ++ [CR])
      (initial_state sample_timing)
    = MenuReturned STATE_RUN [] s'
    /\ can_status s'
       = {| is_set := true; baudrate := 500000; filter_id := 0; mask_id := 0 |}
    /\ hal_calls s'
       = [ HAL_FDCAN_Stop;
           HAL_FDCAN_DeactivateNotification FDCAN_IT_RX_FIFO0_NEW_MESSAGE;
           HAL_FDCAN_Init (timing_of {| timing_baudrate := 500000; prescaler := 2;
                                        timeSeg1 := 34; timeSeg2 := 5 |});
           HAL_FDCAN_ConfigGlobalFilter
             FDCAN_REJECT FDCAN_REJECT FDCAN_REJECT_REMOTE FDCAN_REJECT_REMOTE;
           HAL_FDCAN_ConfigFilter
             {| IdType := FDCAN_STANDARD_ID; FilterIndex := 0;
                FilterType := FDCAN_FILTER_MASK;
                FilterConfig := FDCAN_FILTER_TO_RXFIFO0;
                FilterID1 := 0; FilterID2 := 0 |};
           HAL_FDCAN_Start;
           HAL_FDCAN_ActivateNotification FDCAN_IT_RX_FIFO0_NEW_MESSAGE 0 ].
Proof. eexists. split; [vm_compute; reflexivity|]. split; reflexivity. Qed.

(** Waiting for input, the menu has not started the controller. *)
Example menu_waits_unstarted :
  exists s' : state,
    settings_menu bus_at_500k sample_vsscanf 5 STATE_MENU
      (lit "a" ++ [CR] ++ lit "g") (initial_state sample_timing)
    = MenuBlocked STATE_MENU s'
    /\ can_status s'
       = {| is_set := true; baudrate := 500000; filter_id := 0; mask_id := 0 |}
    /\ controller_running (hal_calls s') = false.
Proof. eexists. split; [vm_compute; reflexivity|]. split; reflexivity. Qed.

(** ** The two sides of the ring *)

(** X16.  The report works on the read side only.  It advances the read
    index to the write index and sends text; it leaves the write index,
    the frame array, the configuration and the controller alone: it
    makes no HAL call. *)
Theorem report_leaves_write_side (fuel : nat) (s : state) :
  ring_wf s ->
  (occupancy s < fuel)%nat ->
  Forall data_array (unread s) ->
  Forall payload_fits (unread s) ->
  exists s' : state,
    send_frame_over_UART fuel s = Ok s'
    /\ tail s' = head s
    /\ head s' = head s
    /\ CAN_ring_buffer s' = CAN_ring_buffer s
    /\ hal_calls s' = hal_calls s
    /\ can_status s' = can_status s
    /\ sFilterConfig s' = sFilterConfig s
    /\ hfdcan1_Init s' = hfdcan1_Init s.
Proof.
  intros W Lt A F. eexists.
  split; [apply send_frame_over_UART_fits; assumption|]. repeat split.
Qed.

Lemma report_leaves_write_side_witness :
  let s := ring_with frame_0x123 in
  ring_wf s /\ (occupancy s < 256)%nat
  /\ Forall data_array (unread s) /\ Forall payload_fits (unread s)
  /\ exists s' : state,
      send_frame_over_UART 256 s = Ok s'
      /\ tail s' = 1 /\ head s' = 1
      /\ CAN_ring_buffer s' = CAN_ring_buffer s
      /\ hal_calls s' = [].
Proof.
  intros s.
  assert (W : ring_wf s) by (repeat split; cbn; try lia; reflexivity).
  assert (Lt : (occupancy s < 256)%nat) by apply occupancy_bound.
  assert (A : Forall data_array (unread s)).
  { change (unread s) with [frame_0x123]. repeat constructor. }
  assert (F : Forall payload_fits (unread s)).
  { change (unread s) with [frame_0x123].
    constructor; [unfold payload_fits; cbn; lia|constructor]. }
  split; [exact W|]. split; [exact Lt|]. split; [exact A|]. split; [exact F|].
  destruct (report_leaves_write_side 256 s W Lt A F)
    as (s' & E & T & H & B & C & _).
  exists s'. split; [exact E|]. split; [rewrite T; reflexivity|].
  split; [rewrite H; reflexivity|]. split; [exact B|]. rewrite C. reflexivity.
Defined.
